(** * Apisix-Allinssl: certificate reconciliation against an APISIX gateway

    A shallow embedding of the Go sources ([main.go] and the file that holds
    [Upload_bind]) and the properties of the reconciliation algorithm:
    the relation classifier [compareSliceRelation], the scan over the listed
    certificate objects, the remote store client and [Upload_bind] itself. *)

From Stdlib Require Import Floats Ascii.
From stdpp Require Import gmap strings list fin_maps.

Set Warnings "-register-all".

Open Scope Z_scope.

(** * Go values *)

(** What [encoding/json] puts into an [any] ([interface{}]): nil, bool,
    float64, string, [[]any] and [map[string]any]. *)
Inductive any : Type :=
| ANil
| ABool (b : bool)
| AFloat64 (f : PrimFloat.float)
| AString (s : string)
| ASlice (l : list any)
| AMap (m : gmap string any).

(** [v.(string)] in its comma-ok form: the zero value and [false] when the
    dynamic type is not string (a missing map key reads as the nil interface). *)
Definition assert_string (v : option any) : string * bool :=
  match v with
  | Some (AString s) => (s, true)
  | _ => ("", false)
  end.

(** [v.([]any)]: [None] is the nil slice of a failed assertion. *)
Definition assert_slice (v : option any) : option (list any) * bool :=
  match v with
  | Some (ASlice l) => (Some l, true)
  | _ => (None, false)
  end.

(** [v.(map[string]any)]. *)
Definition assert_map (v : option any) : option (gmap string any) * bool :=
  match v with
  | Some (AMap m) => (Some m, true)
  | _ => (None, false)
  end.

(** [v.(float64)]. *)
Definition assert_float64 (v : option any) : PrimFloat.float * bool :=
  match v with
  | Some (AFloat64 f) => (f, true)
  | _ => (0%float, false)
  end.

(** * The relation classifier *)

(** The three results of [compareSliceRelation], as the source numbers them:
    0 => no overlap, 1 => partial overlap, 2 => exactly identical. *)
Definition Disjoint : Z := 0.
Definition Partial : Z := 1.
Definition Exact : Z := 2.

Module Classifier.

(** [cnt[s]] on a [map[string]int]: a missing key reads as the zero value. *)
Definition get (cnt : gmap string Z) (s : string) : Z := default 0 (cnt !! s).

(** [for _, s := range a { cnt[s]++ }] on a fresh map. The counters are Go
    [int]s; they never exceed [len(a)], itself an [int], so no wrap-around
    can take place and [Z] holds them as they are (see [count_elems_bound]
    and [match_elems_bound]). *)
Definition count_elems (a : list string) : gmap string Z :=
  foldl (λ cnt s, <[s := get cnt s + 1]> cnt) ∅ a.

(** One turn of [for _, s := range b]: a positive counter is consumed and
    counted as overlap. Reading [cnt[s]] of a missing key inserts nothing. *)
Definition match_step (st : gmap string Z * Z) (s : string) : gmap string Z * Z :=
  let '(cnt, overlap) := st in
  if 0 <? get cnt s then (<[s := get cnt s - 1]> cnt, overlap + 1)
  else (cnt, overlap).

Definition match_elems (cnt : gmap string Z) (b : list string) : gmap string Z * Z :=
  foldl match_step (cnt, 0) b.

(** [for _, v := range cnt { if v != 0 { allZero = false; break } }]: the
    order in which the map is visited does not change the outcome. *)
Definition all_zero (cnt : gmap string Z) : bool :=
  forallb (λ kv, kv.2 =? 0) (map_to_list cnt).

(** [compareSliceRelation]. The copy [cntCopy] of the counters is built by the
    source and never read; it is kept here as a binding. *)
Definition compareSliceRelation (a b : list string) : Z :=
  if (length a =? 0)%nat || (length b =? 0)%nat then 0
  else
    let cnt := count_elems a in
    let cntCopy := cnt in
    let '(cnt, overlap) := match_elems cnt b in
    let exact :=
      if (length a =? length b)%nat then all_zero cnt else false in
    if exact then 2
    else if 0 <? overlap then 1
    else 0.

(** ** The classifier in the words of the specification

    Greedy matching on the lists themselves: each desired element is matched
    against one available identical existing element, which is then used up. *)

Fixpoint remove_one (s : string) (l : list string) : option (list string) :=
  match l with
  | [] => None
  | x :: l' =>
      if String.eqb x s then Some l'
      else match remove_one s l' with
           | Some r => Some (x :: r)
           | None => None
           end
  end.

(** Number of matched elements and the existing elements left unmatched. *)
Fixpoint greedy (existing desired : list string) : nat * list string :=
  match desired with
  | [] => (0%nat, existing)
  | d :: ds =>
      match remove_one d existing with
      | Some ex' => let '(k, rest) := greedy ex' ds in (S k, rest)
      | None => greedy existing ds
      end
  end.

(** Section 4.2 of the specification, read as the cascade it is written as:
    Disjoint for an empty side; else Exact for equal sizes and nothing left
    unmatched; else Partial for at least one match; Disjoint otherwise. *)
Definition Classify_spec (existing desired : list string) : Z :=
  match existing, desired with
  | [], _ | _, [] => Disjoint
  | _, _ =>
      let '(k, rest) := greedy existing desired in
      if (length existing =? length desired)%nat && bool_decide (rest = []) then Exact
      else if (0 <? k)%nat then Partial
      else Disjoint
  end.

(** Number of occurrences, the reading of a counter map on a list. *)
Fixpoint occ (s : string) (l : list string) : Z :=
  match l with
  | [] => 0
  | x :: l' => (if String.eqb x s then 1 else 0) + occ s l'
  end.

(** A counter map reads as a list when every counter is the number of
    occurrences in the list. *)
Definition reads_as (cnt : gmap string Z) (l : list string) : Prop :=
  ∀ s, get cnt s = occ s l.

End Classifier.

Import Classifier.

(** * Errors and results *)

(** A Go [error] value: either one produced by a library ([net/http],
    [encoding/json], [crypto/x509], ...) or one built by [fmt.Errorf], kept
    with its format and operands. A nil [error] operand is [None]. *)
Inductive error : Type :=
| LibError (msg : string)
| Errorf (format : string) (args : list fmtarg)
with fmtarg : Type :=
| ArgString (s : string)
| ArgInt (n : Z)
| ArgAny (v : option any)
| ArgError (e : option error).

(** A Go pair [(T, error)]: the value with a nil error, or the error. *)
Inductive result (A : Type) : Type :=
| Ok (a : A)
| Err (e : error).
Arguments Ok {A} a.
Arguments Err {A} e.

(** [err] as the caller of a [(T, error)] function sees it. *)
Definition err_of {A} (r : result A) : option error :=
  match r with
  | Ok _ => None
  | Err e => Some e
  end.

Definition LF : string := String (Ascii.ascii_of_nat 10) EmptyString.

(** * The fingerprinter ([main.go]) *)

(** The parts of Go's standard library that [GetSHA256] calls and that are
    not code of this repository: [pem.Decode] (the block, or nil when no PEM
    block is found), [x509.ParseCertificate], the [Raw] field of a parsed
    certificate and [sha256.Sum256]. *)
Class Crypto := {
  Certificate : Type;
  pem_Decode : list Byte.byte → option (list Byte.byte);
  x509_ParseCertificate : list Byte.byte → result Certificate;
  Raw : Certificate → list Byte.byte;
  sha256_Sum256 : list Byte.byte → list Byte.byte
}.

Module Hex.

Definition hextable : string := "0123456789abcdef".

Definition digit (n : N) : ascii :=
  default "0"%char (String.get (N.to_nat n) hextable).

(** [hex.EncodeToString]: for every byte [v], [hextable[v>>4]] and then
    [hextable[v&0x0f]]. *)
Fixpoint EncodeToString (src : list Byte.byte) : string :=
  match src with
  | [] => ""
  | v :: rest =>
      String (digit (N.shiftr (Byte.to_N v) 4))
        (String (digit (N.land (Byte.to_N v) 15)) (EncodeToString rest))
  end.

(** The characters a lowercase hexadecimal string is made of. *)
Definition is_lower_hex (c : ascii) : bool :=
  bool_decide (c ∈ String.list_ascii_of_string hextable).

End Hex.

Definition GetSHA256 `{Crypto} (certStr : string) : result string :=
  let certPEM := String.list_byte_of_string certStr in
  match pem_Decode certPEM with
  | None => Err (Errorf "无法解析证书 PEM" [])
  | Some block =>
      match x509_ParseCertificate block with
      | Err err => Err (Errorf "解析证书失败: %v" [ArgError (Some err)])
      | Ok cert =>
          let sha256Hash := sha256_Sum256 (Raw cert) in
          Ok (Hex.EncodeToString sha256Hash)
      end
  end.

(** * Two functions of Go's standard library, written out *)

Module GoLib.

(** [strings.ToUpper] on the ASCII letters (the only ones the method names
    of this program contain); every other byte is kept. *)
Definition upper_ascii (c : ascii) : ascii :=
  let n := Ascii.nat_of_ascii c in
  if (97 <=? n)%nat && (n <=? 122)%nat then Ascii.ascii_of_nat (n - 32) else c.

Fixpoint strings_ToUpper (s : string) : string :=
  match s with
  | EmptyString => EmptyString
  | String c s' => String (upper_ascii c) (strings_ToUpper s')
  end.

Definition is_slash (c : ascii) : bool := Ascii.eqb c "/"%char.

Fixpoint drop_slashes (l : list ascii) : list ascii :=
  match l with
  | c :: l' => if is_slash c then drop_slashes l' else l
  | [] => []
  end.

Fixpoint upto_slash (l : list ascii) : list ascii :=
  match l with
  | c :: l' => if is_slash c then [] else c :: upto_slash l'
  | [] => []
  end.

(** [path.Base]: the last element of the path. Trailing slashes are removed
    before extracting the last element; the empty path gives ".", a path
    made of slashes only gives "/". Both loops of the Go function run from
    the end of the string, so they are written here on the reversed path. *)
Definition path_Base (p : string) : string :=
  if String.eqb p "" then "."
  else
    let stripped := drop_slashes (rev (String.list_ascii_of_string p)) in
    let last := upto_slash stripped in
    if bool_decide (last = []) then "/"
    else String.string_of_list_ascii (rev last).

End GoLib.

(** * The remote store client *)

Record Auth := mkAuth { AdminKey : string; ServerAddress : string }.

Definition NewAuth (adminKey serverAddress : string) : Auth :=
  {| AdminKey := adminKey; ServerAddress := serverAddress |}.

(** A request as [ApisixAPI] builds it: method, URL, headers in the order
    they are added and, for the methods that carry one, the data that is
    sent as JSON body. *)
Record Request := mkRequest {
  req_method : string;
  req_url : string;
  req_header : list (string * string);
  req_body : option (gmap string any)
}.

(** What lies outside the program. [http_json] is one use of the network by
    [ApisixAPI]: building the [http.Request], [client.Do], reading the body
    and [json.Unmarshal] into a [map[string]interface{}]; it answers with the
    decoded object or the error of the step that failed, and moves the
    gateway to its next state. [range_order] is the order in which a [range]
    loop visits the entries of a map, which Go leaves to the runtime. *)
Class Env (W : Type) := {
  http_json : Request → W → result (gmap string any) * W;
  range_order : gmap string any → list (string * any)
}.

(** An order of visit is one of the entries of the map, each once. *)
Definition range_order_ok `{Env W} : Prop :=
  ∀ m, range_order m ≡ₚ map_to_list m.

(** The state threaded through the program: the gateway, the requests handed
    to the network so far (oldest first) and what [fmt.Printf] wrote. *)
Record State (W : Type) := mkState {
  world : W;
  calls : list Request;
  stdout : list (string * list fmtarg)
}.
Arguments mkState {W}.
Arguments world {W}.
Arguments calls {W}.
Arguments stdout {W}.

Definition M (W A : Type) : Type := State W → A * State W.

#[export] Instance M_ret {W} : MRet (M W) := λ A a st, (a, st).
#[export] Instance M_bind {W} : MBind (M W) :=
  λ A B k m st, let '(a, st') := m st in k a st'.

Definition initial {W} (w : W) : State W :=
  {| world := w; calls := []; stdout := [] |}.

Section Client.

Context {W : Type} `{!Env W}.

Definition send (req : Request) : M W (result (gmap string any)) :=
  λ st,
    let '(r, w') := http_json req (world st) in
    (r, {| world := w'; calls := calls st ++ [req]; stdout := stdout st |}).

Definition Printf (format : string) (args : list fmtarg) : M W unit :=
  λ st,
    (tt, {| world := world st; calls := calls st;
            stdout := stdout st ++ [(format, args)] |}).

(** [ApisixAPI]: GET and DELETE carry no body; every other method carries
    [data] as JSON with a Content-Type header; all carry X-API-KEY.
    [json.Marshal] cannot fail on the data this program passes (strings and
    slices of strings). *)
Definition ApisixAPI (a : Auth) (apiPath : string) (data : gmap string any)
    (method : string) : M W (result (gmap string any)) :=
  let method := GoLib.strings_ToUpper method in
  let urlStr := ServerAddress a +:+ apiPath in
  let req :=
    if String.eqb method "GET" || String.eqb method "DELETE" then
      {| req_method := method; req_url := urlStr; req_header := [];
         req_body := None |}
    else
      {| req_method := method; req_url := urlStr;
         req_header := [("Content-Type", "application/json")];
         req_body := Some data |} in
  send {| req_method := req_method req; req_url := req_url req;
          req_header := req_header req ++ [("X-API-KEY", AdminKey a)];
          req_body := req_body req |}.

Definition uploadCertToApisix (a : Auth) (cert key note : string)
    (domain : list string) : M W (result string) :=
  let params : gmap string any :=
    {[ "cert" := AString cert; "key" := AString key; "desc" := AString note;
       "snis" := ASlice (AString <$> domain) ]} in
  r ← ApisixAPI a "/ssls" params "POST";
  mret
    match r with
    | Err err => Err (Errorf "failed to call Cloud API: %w" [ArgError (Some err)])
    | Ok res =>
        let '(code, ok) := assert_float64 (res !! "code") in
        if negb ok then Err (Errorf "invalid response format: code not found" [])
        else if negb (PrimFloat.eqb code 200) then
          Err (Errorf "cloud API error: %s" [ArgAny (res !! "msg")])
        else
          match assert_map (res !! "data") with
          | (Some data, true) =>
              match assert_string (data !! "key") with
              | (certKey, true) => Ok certKey
              | _ => Err (Errorf "invalid response format: key not found" [])
              end
          | _ => Err (Errorf "invalid response format: data not found" [])
          end
    end.

Definition DeleteCertFromApisix (a : Auth) (certKey : string) : M W (result bool) :=
  r ← ApisixAPI a ("/ssls/" +:+ certKey) ∅ "DELETE";
  mret
    match r with
    | Err err => Err (Errorf "failed to call Apisix API: %w" [ArgError (Some err)])
    | Ok res =>
        let '(_, ok) := assert_string (res !! "deleted") in
        if negb ok then
          Err (Errorf "apisix api error: %s" [ArgAny (res !! "message")])
        else
          let '(key, ok) := assert_string (res !! "key") in
          if negb ok then Err (Errorf "invalid response format: key not found" [])
          else
            let reqKey := GoLib.path_Base key in
            if negb (String.eqb reqKey certKey) then
              Err (Errorf "deleted key mismatch: expected %s, got %s"
                     [ArgString certKey; ArgString key])
            else Ok true
    end.

(** The loop of [listCertFromApisix] over the entries of [list], in the order
    the runtime visits them. *)
Fixpoint collect_certs (items : list (string * any))
    (certs : list (gmap string any)) : result (list (gmap string any)) :=
  match items with
  | [] => Ok certs
  | (_, cert) :: rest =>
      match assert_map (Some cert) with
      | (Some certMap, true) => collect_certs rest (certs ++ [certMap])
      | _ => Err (Errorf "invalid response format: cert item is not a map" [])
      end
  end.

Definition listCertFromApisix (a : Auth) : M W (result (list (gmap string any))) :=
  r ← ApisixAPI a "/ssls" ∅ "GET";
  mret
    match r with
    | Err err => Err (Errorf "failed to call Cloud API: %w" [ArgError (Some err)])
    | Ok res =>
        match assert_map (res !! "list") with
        | (Some list, true) => collect_certs (range_order list) []
        | _ => Err (Errorf "invalid response format: data not found" [])
        end
    end.

End Client.

(** * The reconciler *)

Record Response := mkResponse {
  Status : string;
  Message : string;
  Result : gmap string any
}.

(** The parameter bundle once the checks at the head of [Upload_bind] passed. *)
Record Params := mkParams {
  certStr : string;
  keyStr : string;
  adminKey : string;
  serverAddress : string;
  domain : list string
}.

(** [for i, v := range domains]: every element has to be a string; the
    first one that is not ends the call with its index. *)
Fixpoint convert_domains (i : Z) (domains : list any) : result (list string) :=
  match domains with
  | [] => Ok []
  | v :: rest =>
      match assert_string (Some v) with
      | (str, true) =>
          match convert_domains (i + 1) rest with
          | Ok d => Ok (str :: d)
          | Err e => Err e
          end
      | _ => Err (Errorf "element at index %d is not a string" [ArgInt i])
      end
  end.

(** The checks of [Upload_bind] on its parameter bundle, in source order.
    [None] is the nil map. *)
Definition check_params (cfg : option (gmap string any)) : result Params :=
  match cfg with
  | None => Err (Errorf "config cannot be nil" [])
  | Some cfg =>
      let '(certStr, ok) := assert_string (cfg !! "cert") in
      if negb ok || String.eqb certStr "" then
        Err (Errorf "cert is required and must be a string" [])
      else
      let '(keyStr, ok) := assert_string (cfg !! "key") in
      if negb ok || String.eqb keyStr "" then
        Err (Errorf "key is required and must be a string" [])
      else
      let '(adminKey, ok) := assert_string (cfg !! "admin_key") in
      if negb ok || String.eqb adminKey "" then
        Err (Errorf "admin_key is required and must be a string" [])
      else
      let '(serverAddress, ok) := assert_string (cfg !! "server_address") in
      if negb ok || String.eqb serverAddress "" then
        Err (Errorf "server_address is required and must be a string" [])
      else
      let '(domains, ok) := assert_slice (cfg !! "domain") in
      if negb ok || (length (default [] domains) =? 0)%nat then
        Err (Errorf "domain is required and must be a []interface{}" [])
      else
        match convert_domains 0 (default [] domains) with
        | Err e => Err e
        | Ok domain =>
            Ok {| certStr := certStr; keyStr := keyStr; adminKey := adminKey;
                  serverAddress := serverAddress; domain := domain |}
        end
  end.

(** ** The scan over the listed objects *)

(** The three variables the loop over [certServer] updates. *)
Record Scan := mkScan {
  deleteCertKeyList : list string;
  deleteMap : gmap string bool;
  certKey : string
}.

Definition scan_init : Scan :=
  {| deleteCertKeyList := []; deleteMap := ∅; certKey := "" |}.

(** The loop that turns [snisAny] into [snis]: [valid] is false for a nil
    slice and as soon as an element is not a string. *)
Fixpoint strings_of (snisAny : list any) (snis : list string) : list string * bool :=
  match snisAny with
  | [] => (snis, true)
  | v :: rest =>
      match assert_string (Some v) with
      | (s, true) => strings_of rest (snis ++ [s])
      | _ => (snis, false)
      end
  end.

Definition parse_snis (snisAny : option (list any)) : list string * bool :=
  match snisAny with
  | Some l => strings_of l []
  | None => ([], false)
  end.

(** What one turn of the loop reads off a listed object. *)
Definition desc_of (value : gmap string any) : string :=
  (assert_string (value !! "desc")).1.

Definition id_of (value : gmap string any) : string :=
  match assert_string (value !! "id") with
  | (v, true) => v
  | _ => ""
  end.

Definition relation_of (domain : list string) (value : gmap string any) : Z :=
  let '(snis, valid) := parse_snis (assert_slice (value !! "snis")).1 in
  if valid then compareSliceRelation snis domain else 0.

(** The body of [for _, cert := range certServer]. *)
Definition scan_step (note : string) (domain : list string) (st : Scan)
    (cert : gmap string any) : Scan :=
  match assert_map (cert !! "value") with
  | (Some value, true) =>
      let desc := desc_of value in
      let id := id_of value in
      let relation := relation_of domain value in
      let snisMatch := relation =? 2 in
      let snisPartial := relation =? 1 in
      let st :=
        if negb (String.eqb id "") &&
           ((String.eqb desc note && negb snisMatch) ||
            (snisPartial && negb (String.eqb desc note)))
        then
          if negb (default false (deleteMap st !! id)) then
            {| deleteCertKeyList := deleteCertKeyList st ++ [id];
               deleteMap := <[id := true]> (deleteMap st);
               certKey := certKey st |}
          else st
        else st in
      if snisMatch && String.eqb desc note then
        {| deleteCertKeyList := deleteCertKeyList st;
           deleteMap := deleteMap st;
           certKey := id |}
      else st
  | _ => st
  end.

Definition scan (note : string) (domain : list string)
    (certServer : list (gmap string any)) : Scan :=
  foldl (scan_step note domain) scan_init certServer.

(** ** The scan in the words of the specification *)

(** The [value] object of a listed entry, when it has one. *)
Definition value_of (cert : gmap string any) : option (gmap string any) :=
  (assert_map (cert !! "value")).1.

(** The identifier of a listed entry; empty when it carries none. *)
Definition cert_id (cert : gmap string any) : string :=
  match value_of cert with
  | Some value => id_of value
  | None => ""
  end.

(** [desc == note AND relation == Exact]: the entry can be reused. *)
Definition reuse_match (note : string) (domain : list string)
    (cert : gmap string any) : bool :=
  match value_of cert with
  | Some value =>
      String.eqb (desc_of value) note && (relation_of domain value =? Exact)
  | None => false
  end.

(** The entry puts the identifier [x] into the candidate deletion set: the
    identifier is present and non-empty, and the entry is same-note and not
    exact, or partial with a different note. *)
Definition marked (note : string) (domain : list string)
    (cert : gmap string any) (x : string) : Prop :=
  ∃ value, value_of cert = Some value ∧ id_of value = x ∧ x ≠ "" ∧
    ((desc_of value = note ∧ relation_of domain value ≠ Exact) ∨
     (relation_of domain value = Partial ∧ desc_of value ≠ note)).

(** The [snis] field is missing (or is no JSON array at all). *)
Definition snis_missing (value : gmap string any) : Prop :=
  ∀ l, value !! "snis" ≠ Some (ASlice l).

(** The [snis] field is an array with an element that is not a string. *)
Definition snis_non_string (value : gmap string any) : Prop :=
  ∃ l v, value !! "snis" = Some (ASlice l) ∧ v ∈ l ∧ ∀ s, v ≠ AString s.

(** The identifier of the first, and of the last, reusable entry of a
    listing; empty when there is none. *)
Definition first_match_id (note : string) (domain : list string)
    (certServer : list (gmap string any)) : string :=
  match head (filter (λ c, reuse_match note domain c = true) certServer) with
  | Some c => cert_id c
  | None => ""
  end.

Definition last_match_id (note : string) (domain : list string)
    (certServer : list (gmap string any)) : string :=
  match last (filter (λ c, reuse_match note domain c = true) certServer) with
  | Some c => cert_id c
  | None => ""
  end.

(** ** The decision and the mutation *)

Section Reconciler.

Context {W : Type} `{!Env W} `{!Crypto}.

(** [for _, delCertKey := range deleteCertKeyList]. In the branch of a failed
    deletion the source declares a second [err] with [:=] for the result of
    the rollback; it is that inner [err] which the [return] below it names. *)
Fixpoint delete_loop (a : Auth) (certKey : string) (l : list string)
    : M W (option error) :=
  match l with
  | [] => mret None
  | delCertKey :: rest =>
      r ← DeleteCertFromApisix a delCertKey;
      match r with
      | Err err =>
          Printf ("Warning: failed to delete cert %s: %v" +:+ LF)
            [ArgString delCertKey; ArgError (Some err)];;
          r' ← DeleteCertFromApisix a certKey;
          let err := err_of r' in
          match err with
          | Some e =>
              Printf ("Warning: failed to rollback cert %s: %v" +:+ LF)
                [ArgString certKey; ArgError (Some e)]
          | None => mret tt
          end;;
          mret (Some (Errorf "failed to delete old cert %s: %w"
                        [ArgString delCertKey; ArgError err]))
      | Ok _ => delete_loop a certKey rest
      end
  end.

(** Lines 128 to 160: upload and clean up when the scan left [certKey]
    empty, nothing at all otherwise. *)
Definition decide_and_apply (a : Auth) (p : Params) (note : string) (st : Scan)
    : M W (result Response) :=
  if String.eqb (certKey st) "" then
    r ← uploadCertToApisix a (certStr p) (keyStr p) note (domain p);
    let certKey := match r with Ok k => k | Err _ => "" end in
    if bool_decide (is_Some (err_of r)) || String.eqb certKey "" then
      mret (Err (Errorf "failed to upload to Cloud: %w" [ArgError (err_of r)]))
    else
      e ← (if (0 <? length (deleteCertKeyList st))%nat
           then delete_loop a certKey (deleteCertKeyList st)
           else mret None);
      match e with
      | Some err => mret (Err err)
      | None =>
          mret (Ok {| Status := "success";
                      Message := "Certificate uploaded and bound successfully";
                      Result := {[ "message" := AString "绑定成功" ]} |})
      end
  else
    mret (Ok {| Status := "success";
                Message := "Certificate uploaded and bound successfully";
                Result := {[ "message" := AString "已存在绑定" ]} |}).

Definition Upload_bind (cfg : option (gmap string any)) : M W (result Response) :=
  match check_params cfg with
  | Err e => mret (Err e)
  | Ok p =>
      match GetSHA256 (certStr p) with
      | Err err =>
          mret (Err (Errorf "failed to get SHA256 of cert: %w" [ArgError (Some err)]))
      | Ok sha256 =>
          let note := "allinssl-" +:+ sha256 in
          let a := NewAuth (adminKey p) (serverAddress p) in
          r ← listCertFromApisix a;
          match r with
          | Err err =>
              mret (Err (Errorf "failed to list certs from Cloud: %w"
                           [ArgError (Some err)]))
          | Ok certServer =>
              decide_and_apply a p note (scan note (domain p) certServer)
          end
      end
  end.

End Reconciler.

(** * Vocabulary of the statements *)

(** The request [DeleteCertFromApisix] sends for an identifier. *)
Definition delete_request (a : Auth) (certKey : string) : Request :=
  {| req_method := "DELETE";
     req_url := ServerAddress a +:+ ("/ssls/" +:+ certKey);
     req_header := [("X-API-KEY", AdminKey a)];
     req_body := None |}.

(** The request [listCertFromApisix] sends. *)
Definition list_request (a : Auth) : Request :=
  {| req_method := "GET";
     req_url := ServerAddress a +:+ "/ssls";
     req_header := [("X-API-KEY", AdminKey a)];
     req_body := None |}.

(** The gateway confirms the deletion of [certKey]: a [deleted] field of
    string type, and a string [key] whose last path segment is [certKey]. *)
Definition confirms_deletion (res : gmap string any) (certKey : string) : Prop :=
  (∃ d, res !! "deleted" = Some (AString d)) ∧
  ∃ key, res !! "key" = Some (AString key) ∧ GoLib.path_Base key = certKey.

(** A required string field: present, of string type, not empty. *)
Definition nonempty_string (v : option any) : Prop :=
  ∃ s, v = Some (AString s) ∧ s ≠ "".

(** The [domain] field: a non-empty list whose elements are all strings. *)
Definition string_list (v : option any) : Prop :=
  ∃ l, v = Some (ASlice l) ∧ l ≠ [] ∧ ∀ x, x ∈ l → ∃ s, x = AString s.

(** Every required field of the parameter bundle is there, well typed and
    not empty. *)
Definition well_formed_params (cfg : option (gmap string any)) : Prop :=
  ∃ m, cfg = Some m ∧
    nonempty_string (m !! "cert") ∧ nonempty_string (m !! "key") ∧
    nonempty_string (m !! "admin_key") ∧
    nonempty_string (m !! "server_address") ∧
    string_list (m !! "domain").

(** The answer of the reuse branch. *)
Definition already_bound : Response :=
  {| Status := "success";
     Message := "Certificate uploaded and bound successfully";
     Result := {[ "message" := AString "已存在绑定" ]} |}.

(** The answer after an upload and a full clean-up. *)
Definition uploaded_and_bound : Response :=
  {| Status := "success";
     Message := "Certificate uploaded and bound successfully";
     Result := {[ "message" := AString "绑定成功" ]} |}.

(** The guard of the append, as the source writes it. *)
Definition del_cond (note : string) (domain : list string)
    (value : gmap string any) : bool :=
  negb (String.eqb (id_of value) "") &&
  ((String.eqb (desc_of value) note && negb (relation_of domain value =? 2)) ||
   ((relation_of domain value =? 1) && negb (String.eqb (desc_of value) note))).

(** What the loop maintains: no identifier is listed twice, and [deleteMap]
    holds exactly the listed identifiers. *)
Definition scan_inv (st : Scan) : Prop :=
  NoDup (deleteCertKeyList st) ∧
  ∀ x, default false (deleteMap st !! x) = true ↔ x ∈ deleteCertKeyList st.

(** * Concrete gateways and inputs for the worked runs *)

Module Run.

(** A gateway that answers from a script: each request takes the next canned
    answer; once the script is over the connection fails. Maps are visited
    in the order of [map_to_list]. *)
Definition scripted : Env (list (result (gmap string any))) := {|
  http_json _ w :=
    match w with
    | r :: w' => (r, w')
    | [] => (Err (LibError "connection refused"), [])
    end;
  range_order := map_to_list
|}.

(** A stand-in for the crypto library: a non-empty input is one PEM block
    holding the input itself, a block parses when it starts with the DER
    SEQUENCE tag 0x30, and the digest of some bytes is the bytes. *)
Definition plain_crypto : Crypto := {|
  Certificate := list Byte.byte;
  pem_Decode b := match b with [] => None | _ => Some b end;
  x509_ParseCertificate b :=
    match b with
    | Byte.x30 :: _ => Ok b
    | _ => Err (LibError "x509: malformed certificate")
    end;
  Raw c := c;
  sha256_Sum256 b := b
|}.

(** A listed entry [{value: {id, desc, snis}}] and one without [id]. *)
Definition entry (id desc : string) (snis : list string) : gmap string any :=
  {[ "value" := AMap {[ "id" := AString id; "desc" := AString desc;
                        "snis" := ASlice (AString <$> snis) ]} ]}.

Definition entry_no_id (desc : string) (snis : list string) : gmap string any :=
  {[ "value" := AMap {[ "desc" := AString desc;
                        "snis" := ASlice (AString <$> snis) ]} ]}.

(** The parameter bundle of the runs: certificate text "0c", whose
    fingerprint under [plain_crypto] is "3063". *)
Definition cfg (domains : list string) : option (gmap string any) :=
  Some {[ "cert" := AString "0c"; "key" := AString "k";
          "admin_key" := AString "secret";
          "server_address" := AString "http://gw:9180/apisix/admin";
          "domain" := ASlice (AString <$> domains) ]}.

Definition note : string := "allinssl-3063".

(** Answers of the gateway. *)
Definition listing (l : list (string * gmap string any)) : result (gmap string any) :=
  Ok {[ "list" := AMap (list_to_map (prod_map id AMap <$> l)) ]}.

Definition created (id : string) : result (gmap string any) :=
  Ok {[ "code" := AFloat64 200; "data" := AMap {[ "key" := AString id ]} ]}.

Definition deleted (key : string) : result (gmap string any) :=
  Ok {[ "deleted" := AString "1"; "key" := AString key ]}.

Definition get_req : Request :=
  {| req_method := "GET"; req_url := "http://gw:9180/apisix/admin/ssls";
     req_header := [("X-API-KEY", "secret")]; req_body := None |}.

Definition delete_req (id : string) : Request :=
  {| req_method := "DELETE";
     req_url := "http://gw:9180/apisix/admin/ssls/" +:+ id;
     req_header := [("X-API-KEY", "secret")]; req_body := None |}.

Definition post_req (domains : list string) : Request :=
  {| req_method := "POST"; req_url := "http://gw:9180/apisix/admin/ssls";
     req_header := [("Content-Type", "application/json"); ("X-API-KEY", "secret")];
     req_body :=
       Some {[ "cert" := AString "0c"; "key" := AString "k";
               "desc" := AString note;
               "snis" := ASlice (AString <$> domains) ]} |}.

End Run.

(** * Vocabulary of the further properties *)

(** The request [uploadCertToApisix] sends. *)
Definition create_request (a : Auth) (cert key note : string)
    (domain : list string) : Request :=
  {| req_method := "POST";
     req_url := ServerAddress a +:+ "/ssls";
     req_header := [("Content-Type", "application/json");
                    ("X-API-KEY", AdminKey a)];
     req_body :=
       Some {[ "cert" := AString cert; "key" := AString key;
               "desc" := AString note;
               "snis" := ASlice (AString <$> domain) ]} |}.

(** The gateway announces a created object: [code] is the number 200 and
    [data] is an object whose [key] is the string [certKey]. *)
Definition announces_key (res : gmap string any) (certKey : string) : Prop :=
  (∃ code, res !! "code" = Some (AFloat64 code) ∧ PrimFloat.eqb code 200 = true) ∧
  ∃ data, res !! "data" = Some (AMap data) ∧
          data !! "key" = Some (AString certKey).

(** Reading a hexadecimal string back, the inverse of [hex.EncodeToString]. *)
Module HexRead.

Fixpoint index_of (c : ascii) (l : list ascii) : option N :=
  match l with
  | [] => None
  | x :: l' =>
      if Ascii.eqb x c then Some 0%N
      else match index_of c l' with
           | Some n => Some (N.succ n)
           | None => None
           end
  end.

Definition value (c : ascii) : option N :=
  index_of c (String.list_ascii_of_string Hex.hextable).

Fixpoint decode (s : string) : option (list Byte.byte) :=
  match s with
  | EmptyString => Some []
  | String h (String l rest) =>
      match value h, value l, decode rest with
      | Some hv, Some lv, Some bytes =>
          match Byte.of_N (16 * hv + lv) with
          | Some v => Some (v :: bytes)
          | None => None
          end
      | _, _, _ => None
      end
  | String _ EmptyString => None
  end.

End HexRead.

(** The sequence of requests of one call: nothing, or a GET, or a GET and a
    POST, or a GET, a POST and DELETEs only. *)
Definition trace_shape (tr : list Request) : Prop :=
  match tr with
  | [] => True
  | g :: rest =>
      req_method g = "GET" ∧
      match rest with
      | [] => True
      | p :: ds =>
          req_method p = "POST" ∧ Forall (λ d, req_method d = "DELETE") ds
      end
  end.

(** An identifier no confirmation can ever match: the empty one, and one
    with a slash in it (the lone slash apart). *)
Definition unconfirmable (certKey : string) : Prop :=
  certKey = "" ∨
  (certKey ≠ "/" ∧ "/"%char ∈ String.list_ascii_of_string certKey).

Module Sim.

(** A gateway without memory: it always lists the same objects, creates
    under the same identifier and confirms every deletion under the URL it
    was asked for. Maps are visited in the order of [map_to_list]. *)
Definition gateway (objects : list (string * gmap string any))
    (newId : string) : Env unit := {|
  http_json req w :=
    (if String.eqb (req_method req) "GET" then Run.listing objects
     else if String.eqb (req_method req) "POST" then Run.created newId
     else Run.deleted (req_url req), w);
  range_order := map_to_list
|}.

End Sim.

(** * Properties of the classifier *)

Section ClassifierFacts.

Implicit Types (a b l : list string) (s d : string) (cnt : gmap string Z).

Lemma occ_nonneg s l : 0 ≤ occ s l.
Proof. induction l as [|x l IH]; simpl; [lia|]. destruct (String.eqb x s); lia. Qed.

Lemma occ_pos_elem_of s l : 0 < occ s l ↔ s ∈ l.
Proof.
  induction l as [|x l IH]; simpl.
  - split; [lia|]. intros H. inversion H.
  - pose proof (occ_nonneg s l) as Hn.
    destruct (String.eqb_spec x s) as [->|Hne].
    + split; [intros _; left | lia].
    + rewrite elem_of_cons. split.
      * intros H. right. apply IH. lia.
      * intros [->|H]; [done|]. apply IH in H. lia.
Qed.

Lemma occ_all_zero_nil l : (∀ s, occ s l = 0) → l = [].
Proof.
  destruct l as [|x l]; [done|]. intros H. specialize (H x). simpl in H.
  rewrite String.eqb_refl in H. pose proof (occ_nonneg x l). lia.
Qed.

Lemma occ_le_length s l : occ s l ≤ Z.of_nat (length l).
Proof. induction l as [|x l IH]; simpl; [lia|]. destruct (String.eqb x s); lia. Qed.

Lemma get_empty s : get ∅ s = 0.
Proof. unfold get. by rewrite lookup_empty. Qed.

Lemma get_insert_eq cnt s v : get (<[s := v]> cnt) s = v.
Proof. unfold get. by rewrite lookup_insert_eq. Qed.

Lemma get_insert_ne cnt s s' v : s ≠ s' → get (<[s := v]> cnt) s' = get cnt s'.
Proof. intros H. unfold get. by rewrite lookup_insert_ne. Qed.

(** The counter map of [a] reads as the occurrence count. *)
Lemma count_elems_from cnt a s :
  get (foldl (λ cnt s, <[s := get cnt s + 1]> cnt) cnt a) s = get cnt s + occ s a.
Proof.
  revert cnt. induction a as [|x a IH]; intros cnt; simpl; [lia|].
  rewrite IH. destruct (String.eqb_spec x s) as [->|Hne].
  - rewrite get_insert_eq. lia.
  - rewrite get_insert_ne by done. lia.
Qed.

Lemma count_elems_lookup a s : get (count_elems a) s = occ s a.
Proof.
  unfold count_elems. rewrite count_elems_from.
  rewrite get_empty. reflexivity.
Qed.

(** No counter exceeds the length of the slice it counts. *)
Lemma count_elems_bound a s : 0 ≤ get (count_elems a) s ≤ Z.of_nat (length a).
Proof.
  rewrite count_elems_lookup. split; [apply occ_nonneg | apply occ_le_length].
Qed.

Lemma remove_one_Some d l r : remove_one d l = Some r → l ≡ₚ d :: r.
Proof.
  revert r. induction l as [|x l IH]; intros r; simpl; [done|].
  destruct (String.eqb_spec x d) as [->|Hne].
  - intros [= <-]. done.
  - destruct (remove_one d l) as [r'|]; [|done]. intros [= <-].
    rewrite (IH r' eq_refl). apply Permutation_swap.
Qed.

Lemma remove_one_None d l : remove_one d l = None ↔ d ∉ l.
Proof.
  induction l as [|x l IH]; simpl.
  - split; [intros _ H; inversion H | done].
  - rewrite not_elem_of_cons. destruct (String.eqb_spec x d) as [->|Hne].
    + split; [done | intros [? _]; done].
    + destruct (remove_one d l); split; try done.
      * intros [_ H]. apply IH in H. done.
      * intros _. split; [done | by apply IH].
Qed.

Lemma occ_remove_one d l r s :
  remove_one d l = Some r → occ s l = (if String.eqb d s then 1 else 0) + occ s r.
Proof.
  revert r. induction l as [|x l IH]; intros r; simpl; [done|].
  destruct (String.eqb_spec x d) as [->|Hne].
  - intros [= <-]. done.
  - destruct (remove_one d l) as [r'|]; [|done]. intros [= <-].
    simpl. rewrite (IH r' eq_refl). lia.
Qed.

(** ** Greedy matching on lists *)

Lemma greedy_length ex b k rest :
  greedy ex b = (k, rest) →
  length ex = (k + length rest)%nat ∧ (k ≤ length b)%nat.
Proof.
  revert ex k rest. induction b as [|d ds IH]; intros ex k rest; simpl.
  - intros [= <- <-]. lia.
  - destruct (remove_one d ex) as [ex'|] eqn:Hrm.
    + destruct (greedy ex' ds) as [k' rest'] eqn:Hg. intros [= <- <-].
      apply IH in Hg. apply remove_one_Some, Permutation_length in Hrm.
      simpl in Hrm. lia.
    + intros Hg. apply IH in Hg. lia.
Qed.

(** Nothing is left unmatched and the sizes agree exactly when the two lists
    are equal as multisets. *)
Lemma greedy_exact ex b k rest :
  greedy ex b = (k, rest) →
  (rest = [] ∧ length ex = length b) ↔ ex ≡ₚ b.
Proof.
  revert ex k rest. induction b as [|d ds IH]; intros ex k rest; simpl.
  - intros [= <- <-]. split.
    + intros [-> _]. done.
    + intros H. apply Permutation_nil_r in H. by subst.
  - destruct (remove_one d ex) as [ex'|] eqn:Hrm.
    + destruct (greedy ex' ds) as [k' rest'] eqn:Hg. intros [= <- <-].
      apply remove_one_Some in Hrm. specialize (IH _ _ _ Hg).
      pose proof (Permutation_length Hrm) as Hlen. simpl in Hlen.
      split.
      * intros [Hr Hl]. rewrite Hrm. apply Permutation_cons; [done|].
        apply IH. split; [done | lia].
      * intros Hp. rewrite Hrm in Hp. apply Permutation_cons_inv in Hp.
        apply IH in Hp as [Hr Hl]. split; [done | lia].
    + intros Hg. apply remove_one_None in Hrm.
      pose proof (greedy_length _ _ _ _ Hg) as [Hl1 Hl2]. split.
      * intros [-> Hl]. simpl in Hl1. lia.
      * intros Hp. exfalso. apply Hrm. rewrite Hp. left.
Qed.

(** At least one element is matched exactly when the lists share an element. *)
Lemma greedy_overlap ex b k rest :
  greedy ex b = (k, rest) →
  (0 < k)%nat ↔ ∃ s, s ∈ ex ∧ s ∈ b.
Proof.
  revert ex k rest. induction b as [|d ds IH]; intros ex k rest; simpl.
  - intros [= <- <-]. split; [lia|]. intros (s & _ & H). inversion H.
  - destruct (remove_one d ex) as [ex'|] eqn:Hrm.
    + destruct (greedy ex' ds) as [k' rest'] eqn:Hg. intros [= <- <-].
      apply remove_one_Some in Hrm. split; [|lia]. intros _.
      exists d. split; [rewrite Hrm|]; left.
    + intros Hg. apply remove_one_None in Hrm. rewrite (IH _ _ _ Hg).
      split; intros (s & Hs1 & Hs2).
      * exists s. split; [done | by right].
      * exists s. split; [done|]. apply elem_of_cons in Hs2 as [->|]; done.
Qed.

(** ** The counter map simulates the list of unmatched elements *)

Lemma count_elems_reads_as a : reads_as (count_elems a) a.
Proof. intros s. apply count_elems_lookup. Qed.

Lemma match_elems_sim b : ∀ cnt ex n cnt' n' k rest,
  reads_as cnt ex →
  foldl match_step (cnt, n) b = (cnt', n') →
  greedy ex b = (k, rest) →
  reads_as cnt' rest ∧ n' = n + Z.of_nat k.
Proof.
  induction b as [|d ds IH]; intros cnt ex n cnt' n' k rest HR; simpl.
  - intros [= <- <-] [= <- <-]. split; [done | lia].
  - pose proof (HR d) as Hd.
    destruct (remove_one d ex) as [ex'|] eqn:Hrm.
    + pose proof (occ_remove_one _ _ _ d Hrm) as Ho.
      rewrite String.eqb_refl in Ho. pose proof (occ_nonneg d ex').
      destruct (Z.ltb_spec 0 (get cnt d)); [|lia].
      destruct (greedy ex' ds) as [k' rest'] eqn:Hg. intros Hf [= <- <-].
      assert (reads_as (<[d := get cnt d - 1]> cnt) ex') as HR'.
      { intros s. specialize (HR s).
        rewrite (occ_remove_one _ _ _ s Hrm) in HR.
        destruct (String.eqb_spec d s) as [->|Hne].
        - rewrite get_insert_eq. lia.
        - rewrite get_insert_ne by done. lia. }
      destruct (IH _ _ _ _ _ _ _ HR' Hf Hg) as [? ->]. split; [done | lia].
    + apply remove_one_None in Hrm.
      assert (¬ 0 < occ d ex) as Hz by (by rewrite occ_pos_elem_of).
      destruct (Z.ltb_spec 0 (get cnt d)); [lia|].
      intros Hf Hg. by apply (IH _ _ _ _ _ _ _ HR Hf Hg).
Qed.

Lemma all_zero_spec cnt : all_zero cnt = true ↔ ∀ s, get cnt s = 0.
Proof.
  unfold all_zero. rewrite forallb_forall. split.
  - intros H s. unfold get. destruct (cnt !! s) as [v|] eqn:Hl; [|done].
    simpl. specialize (H (s, v)). simpl in H. apply Z.eqb_eq, H.
    apply list_elem_of_In, elem_of_map_to_list, Hl.
  - intros H [s v] Hin. simpl.
    apply list_elem_of_In, elem_of_map_to_list in Hin.
    specialize (H s). unfold get in H. rewrite Hin in H. simpl in H.
    by apply Z.eqb_eq.
Qed.

Lemma all_zero_reads_as cnt l : reads_as cnt l → all_zero cnt = true ↔ l = [].
Proof.
  intros HR. rewrite all_zero_spec. split.
  - intros H. apply occ_all_zero_nil. intros s. rewrite <- HR. apply H.
  - intros -> s. by rewrite HR.
Qed.

(** The source computes the classifier of the specification. *)
Lemma compareSliceRelation_refines a b :
  compareSliceRelation a b = Classify_spec a b.
Proof.
  unfold compareSliceRelation, Classify_spec.
  destruct a as [|x a]; [done|]. destruct b as [|y b]; [done|].
  set (A := x :: a). set (B := y :: b).
  replace ((length A =? 0)%nat || (length B =? 0)%nat) with false by done.
  unfold match_elems.
  destruct (foldl match_step (count_elems A, 0) B) as [cnt' n'] eqn:Hf.
  destruct (greedy A B) as [k rest] eqn:Hg.
  destruct (match_elems_sim _ _ _ _ _ _ _ _ (count_elems_reads_as A) Hf Hg)
    as [HR ->].
  pose proof (all_zero_reads_as _ _ HR) as Hz.
  assert (all_zero cnt' = bool_decide (rest = [])) as ->.
  { case_bool_decide as Hr.
    - by apply Hz.
    - destruct (all_zero cnt'); [|done]. exfalso. by apply Hr, Hz. }
  destruct (length A =? length B)%nat; simpl.
  - destruct (bool_decide (rest = [])); [done|].
    destruct (Z.ltb_spec 0 (0 + Z.of_nat k)), (Nat.ltb_spec 0 k); done || lia.
  - destruct (Z.ltb_spec 0 (0 + Z.of_nat k)), (Nat.ltb_spec 0 k); done || lia.
Qed.

(** The overlap counter stays within the length of [b], as every counter of
    the map stays within the length of [a]: the [int] arithmetic of the
    source never wraps. *)
Lemma match_elems_bound a b :
  0 ≤ (match_elems (count_elems a) b).2 ≤ Z.of_nat (length b).
Proof.
  unfold match_elems.
  destruct (foldl match_step (count_elems a, 0) b) as [cnt' n'] eqn:Hf.
  destruct (greedy a b) as [k rest] eqn:Hg.
  destruct (match_elems_sim _ _ _ _ _ _ _ _ (count_elems_reads_as a) Hf Hg)
    as [_ ->].
  apply greedy_length in Hg. simpl. lia.
Qed.

(** ** Multiset reading of the three results *)

Lemma Permutation_occ a b : a ≡ₚ b ↔ ∀ s, occ s a = occ s b.
Proof.
  split.
  - intros Hp s. induction Hp; simpl; lia.
  - revert b. induction a as [|x a IH]; intros b H.
    + symmetry in H. apply occ_all_zero_nil in H. by subst.
    + assert (x ∈ b) as Hx.
      { apply occ_pos_elem_of. rewrite <- H. simpl. rewrite String.eqb_refl.
        pose proof (occ_nonneg x a). lia. }
      destruct (remove_one x b) as [b'|] eqn:Hrm.
      2: { by apply remove_one_None in Hrm. }
      rewrite (remove_one_Some _ _ _ Hrm). apply Permutation_cons; [done|].
      apply IH. intros s. specialize (H s).
      rewrite (occ_remove_one _ _ _ s Hrm) in H. simpl in H.
      destruct (String.eqb x s); lia.
Qed.

Lemma Classify_spec_Exact a b : Classify_spec a b = Exact ↔ a ≠ [] ∧ a ≡ₚ b.
Proof.
  unfold Classify_spec. destruct a as [|x a].
  { split; [done | intros [? _]; done]. }
  destruct b as [|y b].
  { split; [done|]. intros [_ H]. by apply Permutation_nil_r in H. }
  destruct (greedy (x :: a) (y :: b)) as [k rest] eqn:Hg.
  rewrite <- (greedy_exact _ _ _ _ Hg).
  destruct (Nat.eqb_spec (length (x :: a)) (length (y :: b))) as [Hl|Hl];
    simpl andb.
  - case_bool_decide as Hr.
    + done.
    + split; [|intros [_ [? _]]; done].
      destruct (0 <? k)%nat; done.
  - split; [|intros [_ [_ ?]]; done].
    destruct (0 <? k)%nat; done.
Qed.

Lemma Classify_spec_Partial a b :
  Classify_spec a b = Partial ↔ (∃ s, s ∈ a ∧ s ∈ b) ∧ ¬ a ≡ₚ b.
Proof.
  unfold Classify_spec. destruct a as [|x a].
  { split; [done|]. intros [(s & H & _) _]. inversion H. }
  destruct b as [|y b].
  { split; [done|]. intros [(s & _ & H) _]. inversion H. }
  destruct (greedy (x :: a) (y :: b)) as [k rest] eqn:Hg.
  rewrite <- (greedy_exact _ _ _ _ Hg), <- (greedy_overlap _ _ _ _ Hg).
  destruct (Nat.eqb_spec (length (x :: a)) (length (y :: b))) as [Hl|Hl];
    simpl andb.
  - case_bool_decide as Hr.
    + split; [done | intros [_ Hn]; by destruct Hn].
    + destruct (Nat.ltb_spec 0 k).
      * split; [|done]. intros _. split; [done | intros [? _]; done].
      * split; [done | intros [? _]; lia].
  - destruct (Nat.ltb_spec 0 k).
    + split; [|done]. intros _. split; [done | intros [_ ?]; done].
    + split; [done | intros [? _]; lia].
Qed.

Lemma Classify_spec_range a b :
  Classify_spec a b = Disjoint ∨ Classify_spec a b = Partial ∨
  Classify_spec a b = Exact.
Proof.
  unfold Classify_spec. destruct a; [by left|]. destruct b; [by left|].
  destruct (greedy _ _) as [k rest].
  destruct (_ && _); [by right; right|].
  destruct (0 <? k)%nat; [by right; left | by left].
Qed.

(** C4: [compareSliceRelation] is the three-way relation of the specification
    over string multisets. It computes the greedy classifier of section 4.2;
    it returns Disjoint whenever either list is empty; among non-empty lists
    it returns Exact exactly for lists equal as multisets (permutations of
    each other, that is, the same multiplicity for every string); it returns
    Partial exactly when some element is shared and the lists are not equal
    as multisets; and two copies of a string against one are Partial. *)
Theorem compareSliceRelation_classifies (a b : list string) :
  compareSliceRelation a b = Classify_spec a b
  ∧ compareSliceRelation [] b = Disjoint
  ∧ compareSliceRelation a [] = Disjoint
  ∧ (compareSliceRelation a b = Exact ↔ a ≠ [] ∧ a ≡ₚ b)
  ∧ (compareSliceRelation a b = Exact ↔ a ≠ [] ∧ ∀ s, occ s a = occ s b)
  ∧ (compareSliceRelation a b = Partial ↔ (∃ s, s ∈ a ∧ s ∈ b) ∧ ¬ a ≡ₚ b)
  ∧ compareSliceRelation ["a"; "a"] ["a"] = Partial.
Proof.
  rewrite !compareSliceRelation_refines.
  split; [done|]. split; [done|]. split; [by destruct a|].
  split; [apply Classify_spec_Exact|].
  split; [rewrite <- Permutation_occ; apply Classify_spec_Exact|].
  split; [apply Classify_spec_Partial | reflexivity].
Qed.

(** C5: classification is symmetric in its two arguments. *)
Theorem compareSliceRelation_sym (a b : list string) :
  compareSliceRelation a b = compareSliceRelation b a.
Proof.
  rewrite !compareSliceRelation_refines.
  assert (∀ a b, Classify_spec a b = Exact → Classify_spec b a = Exact) as HE.
  { intros a' b'. rewrite !Classify_spec_Exact. intros [Hne Hp].
    split; [|done]. intros ->. by apply Permutation_nil_r in Hp. }
  assert (∀ a b, Classify_spec a b = Partial → Classify_spec b a = Partial) as HP.
  { intros a' b'. rewrite !Classify_spec_Partial. intros [(s & H1 & H2) Hn].
    split; [by exists s|]. intros Hp. by apply Hn. }
  destruct (Classify_spec_range a b) as [H|[H|H]].
  - destruct (Classify_spec_range b a) as [H'|[H'|H']]; [by rewrite H, H'| |].
    + apply HP in H'. unfold Disjoint, Partial in *. congruence.
    + apply HE in H'. unfold Disjoint, Exact in *. congruence.
  - rewrite H. symmetry. by apply HP.
  - rewrite H. symmetry. by apply HE.
Qed.

End ClassifierFacts.

(** * Properties of the scan *)

Section ScanFacts.

Variables (note : string) (domain : list string).

Implicit Types (st : Scan) (cert : gmap string any) (x : string).

Lemma value_of_Some cert value :
  value_of cert = Some value ↔ cert !! "value" = Some (AMap value).
Proof.
  unfold value_of, assert_map.
  destruct (cert !! "value") as [[]|]; simpl; split; congruence.
Qed.

Lemma scan_step_fields st cert :
  scan_step note domain st cert =
  match value_of cert with
  | Some value =>
      let add := del_cond note domain value &&
                 negb (default false (deleteMap st !! id_of value)) in
      {| deleteCertKeyList :=
           if add then deleteCertKeyList st ++ [id_of value]
           else deleteCertKeyList st;
         deleteMap :=
           if add then <[id_of value := true]> (deleteMap st) else deleteMap st;
         certKey :=
           if reuse_match note domain cert then id_of value else certKey st |}
  | None => st
  end.
Proof.
  unfold scan_step, reuse_match, value_of, del_cond, assert_map, Exact.
  destruct (cert !! "value") as [[]|]; simpl; try done.
  rewrite (andb_comm (String.eqb _ note) (_ =? 2)).
  destruct st as [dl dm ck]; simpl.
  destruct (negb (String.eqb (id_of m) "") && _); simpl;
    [destruct (negb (default false (dm !! id_of m))); simpl|];
    destruct ((relation_of domain m =? 2) && _); done.
Qed.

Lemma del_cond_marked cert value :
  value_of cert = Some value →
  del_cond note domain value = true ↔ marked note domain cert (id_of value).
Proof.
  intros Hv. unfold del_cond, marked, Exact, Partial. split.
  - intros H. exists value. split; [done|]. split; [done|].
    apply andb_true_iff in H as [Hid H]. split.
    { intros Heq. rewrite Heq in Hid. done. }
    apply orb_true_iff in H as [H|H]; apply andb_true_iff in H as [H1 H2].
    + left. split; [by apply String.eqb_eq|].
      intros Heq. rewrite Heq in H2. done.
    + right. split; [by apply Z.eqb_eq|].
      intros Heq. rewrite Heq, String.eqb_refl in H2. done.
  - intros (value' & Hv' & Hid & Hne & H).
    rewrite Hv in Hv'. injection Hv' as <-.
    apply andb_true_iff. split.
    { destruct (String.eqb_spec (id_of value) ""); [congruence | done]. }
    apply orb_true_iff. destruct H as [[H1 H2]|[H1 H2]]; [left | right];
      apply andb_true_iff; split.
    + by apply String.eqb_eq.
    + destruct (Z.eqb_spec (relation_of domain value) 2); done.
    + by apply Z.eqb_eq.
    + destruct (String.eqb_spec (desc_of value) note); done.
Qed.

Lemma scan_inv_init : scan_inv scan_init.
Proof.
  split; [constructor|]. intros x. simpl. rewrite lookup_empty. simpl.
  split; [done | intros H; inversion H].
Qed.

Lemma scan_step_inv st cert :
  scan_inv st →
  scan_inv (scan_step note domain st cert) ∧
  ∀ x, x ∈ deleteCertKeyList (scan_step note domain st cert) ↔
       x ∈ deleteCertKeyList st ∨ marked note domain cert x.
Proof.
  intros [Hnd Hmap]. rewrite scan_step_fields.
  destruct (value_of cert) as [value|] eqn:Hv.
  2: { split; [done|]. intros x. split; [by left|].
       intros [|(v & ? & _)]; [done | congruence]. }
  pose proof (del_cond_marked _ _ Hv) as Hdc.
  assert (∀ x, marked note domain cert x → x = id_of value) as Hmid.
  { intros x (v & Hv' & <- & _). congruence. }
  simpl. destruct (del_cond note domain value) eqn:Hc; simpl.
  - destruct (default false (deleteMap st !! id_of value)) eqn:Hin; simpl.
    + split; [done|]. intros x. split; [by left|].
      intros [|Hm]; [done|]. apply Hmid in Hm as ->. by apply Hmap.
    + assert (id_of value ∉ deleteCertKeyList st) as Hnin.
      { intros Hel. apply Hmap in Hel. congruence. }
      split.
      * split; simpl.
        -- apply NoDup_app. split; [done|]. split; [|apply NoDup_singleton].
           intros y Hy Hy'. apply list_elem_of_singleton in Hy' as ->. done.
        -- intros x. rewrite elem_of_app, list_elem_of_singleton.
           destruct (decide (x = id_of value)) as [->|Hne].
           ++ rewrite lookup_insert_eq. simpl. split; [by right | done].
           ++ rewrite lookup_insert_ne by done. rewrite Hmap. split; [by left|].
              intros [|]; done.
      * intros x. rewrite elem_of_app, list_elem_of_singleton. split.
        -- intros [ | -> ]; [by left | right; by apply Hdc].
        -- intros [|Hm]; [by left | right; by apply Hmid].
  - split; [done|]. intros x. split; [by left|].
    intros [|Hm]; [done|]. pose proof (Hmid _ Hm) as ->.
    apply Hdc in Hm. congruence.
Qed.

Lemma scan_from_inv certServer : ∀ st,
  scan_inv st →
  scan_inv (foldl (scan_step note domain) st certServer) ∧
  ∀ x, x ∈ deleteCertKeyList (foldl (scan_step note domain) st certServer) ↔
       x ∈ deleteCertKeyList st ∨ ∃ cert, cert ∈ certServer ∧ marked note domain cert x.
Proof.
  induction certServer as [|c l IH]; intros st Hinv; simpl.
  - split; [done|]. intros x. split; [by left|].
    intros [|(c & Hc & _)]; [done | inversion Hc].
  - destruct (scan_step_inv st c Hinv) as [Hinv' Hstep].
    destruct (IH _ Hinv') as [Hinv'' Hrest]. split; [done|].
    intros x. rewrite Hrest, Hstep. split.
    + intros [[|Hm]|(c' & Hc' & Hm)]; [by left | |].
      * right. exists c. split; [left | done].
      * right. exists c'. split; [by right | done].
    + intros [|(c' & Hc' & Hm)]; [by left; left|].
      apply elem_of_cons in Hc' as [->|Hc']; [by left; right|].
      right. by exists c'.
Qed.

Lemma strings_of_valid l : ∀ acc,
  (strings_of l acc).2 = true ↔ ∀ v, v ∈ l → ∃ s, v = AString s.
Proof.
  induction l as [|v l IH]; intros acc; simpl.
  - split; [|done]. intros _ v Hv. inversion Hv.
  - destruct v; simpl;
      try (split; [done|]; intros H;
           by destruct (H _ (list_elem_of_here _ _)) as [? ?]).
    rewrite IH. split.
    + intros H v Hv. apply elem_of_cons in Hv as [->|Hv]; [by eexists | by apply H].
    + intros H v Hv. apply H. by right.
Qed.

Lemma relation_of_malformed value :
  snis_missing value ∨ snis_non_string value →
  relation_of domain value = Disjoint.
Proof.
  unfold relation_of, assert_slice, parse_snis. intros [Hm|(l & v & Hl & Hv & Hns)].
  - destruct (value !! "snis") as [[ | | | |l0| ]|] eqn:E; simpl; try done.
    by destruct (Hm l0).
  - rewrite Hl. simpl. destruct (strings_of l []) as [snis valid] eqn:Hs.
    destruct valid; [|done]. exfalso.
    assert ((strings_of l []).2 = true) as Hval by (by rewrite Hs).
    destruct (proj1 (strings_of_valid l []) Hval v Hv) as [s ->].
    by apply (Hns s).
Qed.

(** C3: the candidate deletion set holds exactly the identifiers of the
    listed objects whose identifier is present and non-empty and which are
    same-note and not Exact, or Partial with a different note; no identifier
    is held twice; and an object whose [snis] is missing or holds a
    non-string element classifies as Disjoint (the scan is a total function,
    it has no error to raise). *)
Theorem scan_deletion_set (certServer : list (gmap string any)) :
  (∀ x, x ∈ deleteCertKeyList (scan note domain certServer) ↔
        ∃ cert value, cert ∈ certServer ∧ value_of cert = Some value ∧
          id_of value = x ∧ x ≠ "" ∧
          ((desc_of value = note ∧ relation_of domain value ≠ Exact) ∨
           (relation_of domain value = Partial ∧ desc_of value ≠ note)))
  ∧ NoDup (deleteCertKeyList (scan note domain certServer))
  ∧ (∀ cert value, value_of cert = Some value →
       snis_missing value ∨ snis_non_string value →
       relation_of domain value = Disjoint ∧
       (marked note domain cert (id_of value) ↔
        id_of value ≠ "" ∧ desc_of value = note)).
Proof.
  destruct (scan_from_inv certServer scan_init scan_inv_init) as [[Hnd _] Hel].
  split; [|split; [done|]].
  - intros x. unfold scan. rewrite Hel. split.
    + intros [H|(cert & Hc & value & Hm)]; [inversion H|]. by exists cert, value.
    + intros (cert & value & Hc & Hm). right. exists cert. split; [done|].
      by exists value.
  - intros cert value Hv Hmal.
    pose proof (relation_of_malformed value Hmal) as Hr.
    split; [done|]. unfold marked. split.
    + intros (value' & Hv' & Hid & Hne & H).
      rewrite Hv in Hv'. injection Hv' as <-. rewrite Hr in H.
      destruct H as [[Hd _]|[Hd _]]; done.
    + intros [Hne Hd]. exists value. split; [done|]. split; [done|].
      split; [done|]. left. by rewrite Hr.
Qed.

Lemma cert_id_value cert value : value_of cert = Some value → cert_id cert = id_of value.
Proof. unfold cert_id. by intros ->. Qed.

Lemma scan_step_certKey st cert :
  certKey (scan_step note domain st cert) =
  if reuse_match note domain cert then cert_id cert else certKey st.
Proof.
  rewrite scan_step_fields. unfold cert_id, reuse_match.
  by destruct (value_of cert).
Qed.

Lemma scan_snoc l cert :
  scan note domain (l ++ [cert]) = scan_step note domain (scan note domain l) cert.
Proof. unfold scan. by rewrite foldl_snoc. Qed.

Lemma scan_certKey certServer :
  certKey (scan note domain certServer) = last_match_id note domain certServer.
Proof.
  unfold last_match_id.
  induction certServer as [|cert l IH] using rev_ind; [done|].
  rewrite scan_snoc, scan_step_certKey, filter_app, filter_cons, filter_nil.
  destruct (reuse_match note domain cert) eqn:Hm.
  - rewrite decide_True by done. by rewrite last_snoc.
  - rewrite decide_False by (by intros ?). by rewrite app_nil_r.
Qed.

(** C1, as the code has it: the reuse candidate left by the scan is the
    identifier of the LAST listed object with [desc == note] and an Exact
    relation (empty when there is none); a reusable object visited later
    overwrites the candidate of an earlier one. *)
Theorem scan_certKey_last_match (certServer : list (gmap string any))
    (cert : gmap string any) :
  certKey (scan note domain certServer) = last_match_id note domain certServer
  ∧ certKey (scan note domain (certServer ++ [cert])) =
      if reuse_match note domain cert then cert_id cert
      else certKey (scan note domain certServer).
Proof.
  split; [apply scan_certKey|]. by rewrite scan_snoc, scan_step_certKey.
Qed.

Lemma reuse_match_not_marked cert :
  reuse_match note domain cert = true → ¬ marked note domain cert (cert_id cert).
Proof.
  unfold reuse_match. intros Hm (value & Hv & _ & _ & H). rewrite Hv in Hm.
  apply andb_true_iff in Hm as [Hd Hr].
  apply String.eqb_eq in Hd. apply Z.eqb_eq in Hr.
  destruct H as [[_ H]|[H1 H2]]; [done|]. done.
Qed.

(** C10, as the code has it: the turn of the loop that visits an object with
    [desc == note] and an Exact relation never adds anything to the
    candidate deletion set, and that object does not meet a deletion
    condition; its identifier is in the final set exactly when some OTHER
    listed object carrying the same identifier meets one. So when no other
    listed object shares its identifier, the identifier (and with it the
    chosen reuse candidate) is not a deletion candidate. *)
Theorem exact_match_not_scheduled (certServer : list (gmap string any))
    (cert : gmap string any) :
  cert ∈ certServer →
  reuse_match note domain cert = true →
  (∀ st, deleteCertKeyList (scan_step note domain st cert) = deleteCertKeyList st)
  ∧ ¬ marked note domain cert (cert_id cert)
  ∧ (cert_id cert ∈ deleteCertKeyList (scan note domain certServer) ↔
       ∃ other, other ∈ certServer ∧ other ≠ cert ∧
                cert_id other = cert_id cert ∧
                marked note domain other (cert_id cert))
  ∧ ((∀ other, other ∈ certServer → cert_id other = cert_id cert → other = cert) →
       cert_id cert ∉ deleteCertKeyList (scan note domain certServer)).
Proof.
  intros Hin Hm. pose proof (reuse_match_not_marked cert Hm) as Hnm.
  destruct (scan_from_inv certServer scan_init scan_inv_init) as [_ Hel].
  assert (cert_id cert ∈ deleteCertKeyList (scan note domain certServer) ↔
          ∃ other, other ∈ certServer ∧ other ≠ cert ∧
                   cert_id other = cert_id cert ∧
                   marked note domain other (cert_id cert)) as Hiff.
  { unfold scan. rewrite Hel. split.
    - intros [H|(other & Ho & Hmk)]; [inversion H|]. exists other.
      split; [done|]. split; [by intros ->|]. split; [|done].
      destruct Hmk as (value & Hv & Hid & _). by rewrite (cert_id_value _ _ Hv).
    - intros (other & Ho & _ & _ & Hmk). right. by exists other. }
  split; [|split; [done|split; [done|]]].
  - intros st. rewrite scan_step_fields.
    destruct (value_of cert) as [value|] eqn:Hv; [|done]. simpl.
    assert (del_cond note domain value = false) as ->; [|done].
    destruct (del_cond note domain value) eqn:Hc; [|done]. exfalso. apply Hnm.
    rewrite (cert_id_value _ _ Hv). by apply del_cond_marked.
  - intros Huniq. rewrite Hiff. intros (other & Ho & Hne & Hid & _).
    by apply Hne, Huniq.
Qed.

End ScanFacts.

(** ** Worked listings *)

(** C3 at a listing with a stale object, a foreign partial one listed twice
    and an object whose [snis] holds a number. *)
Lemma scan_deletion_set_run :
  NoDup (deleteCertKeyList (scan Run.note ["a.com"; "b.com"]
           [Run.entry "7" Run.note ["a.com"];
            Run.entry "8" "other" ["a.com"; "c.com"];
            Run.entry "8" "other" ["a.com"; "c.com"]]))
  ∧ relation_of ["a.com"]
      {[ "id" := AString "9"; "snis" := ASlice [AString "a.com"; AFloat64 1] ]}
    = Disjoint.
Proof.
  split.
  - apply (scan_deletion_set Run.note ["a.com"; "b.com"]).
  - refine (proj1 (proj2 (proj2 (scan_deletion_set Run.note ["a.com"] []))
      {[ "value" := AMap
           {[ "id" := AString "9";
              "snis" := ASlice [AString "a.com"; AFloat64 1] ]} ]}
      {[ "id" := AString "9"; "snis" := ASlice [AString "a.com"; AFloat64 1] ]}
      _ _)).
    + vm_compute. reflexivity.
    + right. exists [AString "a.com"; AFloat64 1], (AFloat64 1).
      split; [vm_compute; reflexivity|]. split; [|done].
      right. left.
Defined.

(** C1 fails as stated: with two reusable objects listed, "1" first and "2"
    after it, the scan leaves "2", not the first one, as reuse candidate. *)
Lemma scan_first_match_overwritten :
  reuse_match Run.note ["a.com"] (Run.entry "1" Run.note ["a.com"]) = true
  ∧ reuse_match Run.note ["a.com"] (Run.entry "2" Run.note ["a.com"]) = true
  ∧ first_match_id Run.note ["a.com"]
      [Run.entry "1" Run.note ["a.com"]; Run.entry "2" Run.note ["a.com"]] = "1"
  ∧ certKey (scan Run.note ["a.com"]
      [Run.entry "1" Run.note ["a.com"]; Run.entry "2" Run.note ["a.com"]]) = "2".
Proof. vm_compute. repeat split; reflexivity. Qed.

(** C10 fails as stated: the first object is same-note and Exact with
    identifier "1"; a second object carries the same identifier with a stale
    domain list; "1" ends up both as reuse candidate and in the candidate
    deletion set. *)
Lemma exact_match_id_in_deletion_set :
  reuse_match Run.note ["a.com"] (Run.entry "1" Run.note ["a.com"]) = true
  ∧ cert_id (Run.entry "1" Run.note ["a.com"]) = "1"
  ∧ deleteCertKeyList (scan Run.note ["a.com"]
      [Run.entry "1" Run.note ["a.com"]; Run.entry "1" Run.note ["b.com"]]) = ["1"]
  ∧ certKey (scan Run.note ["a.com"]
      [Run.entry "1" Run.note ["a.com"]; Run.entry "1" Run.note ["b.com"]]) = "1".
Proof. vm_compute. repeat split; reflexivity. Qed.

(** C10 as amended, at a listing whose identifiers are distinct: the reusable
    object "1" next to a foreign partial object "2". *)
Lemma exact_match_not_scheduled_run :
  (∀ st, deleteCertKeyList
           (scan_step Run.note ["a.com"; "b.com"] st
              (Run.entry "1" Run.note ["a.com"; "b.com"]))
         = deleteCertKeyList st)
  ∧ deleteCertKeyList (scan Run.note ["a.com"; "b.com"]
      [Run.entry "1" Run.note ["a.com"; "b.com"];
       Run.entry "2" "other" ["a.com"; "c.com"]]) = ["2"].
Proof.
  split.
  - apply (exact_match_not_scheduled Run.note ["a.com"; "b.com"]
      [Run.entry "1" Run.note ["a.com"; "b.com"];
       Run.entry "2" "other" ["a.com"; "c.com"]]
      (Run.entry "1" Run.note ["a.com"; "b.com"])).
    + left.
    + vm_compute. reflexivity.
  - vm_compute. reflexivity.
Defined.

(** * Properties of the remote store client *)

Section ClientFacts.

Context {W : Type} `{!Env W}.

Implicit Types (a : Auth) (st : State W).

Lemma DeleteCertFromApisix_sends a certKey st :
  (DeleteCertFromApisix a certKey st).2 =
  {| world := (http_json (delete_request a certKey) (world st)).2;
     calls := calls st ++ [delete_request a certKey];
     stdout := stdout st |}.
Proof.
  unfold DeleteCertFromApisix, ApisixAPI, send, mbind, mret, M_bind, M_ret.
  change (GoLib.strings_ToUpper "DELETE") with "DELETE". simpl.
  fold (delete_request a certKey).
  by destruct (http_json (delete_request a certKey) (world st)).
Qed.

Lemma DeleteCertFromApisix_result a certKey st :
  (DeleteCertFromApisix a certKey st).1 =
  match (http_json (delete_request a certKey) (world st)).1 with
  | Err err => Err (Errorf "failed to call Apisix API: %w" [ArgError (Some err)])
  | Ok res =>
      match res !! "deleted" with
      | Some (AString _) =>
          match res !! "key" with
          | Some (AString key) =>
              if String.eqb (GoLib.path_Base key) certKey then Ok true
              else Err (Errorf "deleted key mismatch: expected %s, got %s"
                          [ArgString certKey; ArgString key])
          | _ => Err (Errorf "invalid response format: key not found" [])
          end
      | _ => Err (Errorf "apisix api error: %s" [ArgAny (res !! "message")])
      end
  end.
Proof.
  unfold DeleteCertFromApisix, ApisixAPI, send, mbind, mret, M_bind, M_ret.
  change (GoLib.strings_ToUpper "DELETE") with "DELETE". simpl.
  fold (delete_request a certKey).
  destruct (http_json (delete_request a certKey) (world st)) as [[res|err] w'];
    simpl; [|done].
  unfold assert_string.
  destruct (res !! "deleted") as [[]|]; simpl; try done.
  destruct (res !! "key") as [[]|]; simpl; try done.
  by destruct (String.eqb _ certKey).
Qed.

(** C9: [DeleteCertFromApisix] sends one DELETE for the identifier and
    returns success exactly when the gateway answered, the answer holds a
    [deleted] field of string type and the last path segment of its string
    [key] is the requested identifier; in every other case (transport
    failure, no confirmation, no key, another identifier) it returns an
    error. *)
Theorem DeleteCertFromApisix_success_iff (a : Auth) (certKey : string) (st : State W) :
  ((DeleteCertFromApisix a certKey st).1 = Ok true ↔
     ∃ res, (http_json (delete_request a certKey) (world st)).1 = Ok res ∧
            confirms_deletion res certKey)
  ∧ ((DeleteCertFromApisix a certKey st).1 = Ok true ∨
     ∃ e, (DeleteCertFromApisix a certKey st).1 = Err e)
  ∧ calls (DeleteCertFromApisix a certKey st).2 =
      calls st ++ [delete_request a certKey].
Proof.
  rewrite DeleteCertFromApisix_sends, DeleteCertFromApisix_result.
  unfold confirms_deletion.
  destruct (http_json (delete_request a certKey) (world st)).1 as [res|err].
  2: { split; [|split; [right; by eexists | done]].
       split; [done | intros (? & ? & _); done]. }
  destruct (res !! "deleted") as [[ | | |d| | ]|] eqn:Hd;
    try (split; [|split; [right; by eexists | done]];
         split; [done | intros (? & [= <-] & (? & Hd') & _); congruence]).
  destruct (res !! "key") as [[ | | |key| | ]|] eqn:Hk;
    try (split; [|split; [right; by eexists | done]];
         split; [done | intros (? & [= <-] & _ & (? & Hk' & _)); congruence]).
  destruct (String.eqb_spec (GoLib.path_Base key) certKey) as [Hb|Hb].
  - split; [|split; [by left | done]]. split; [|done]. intros _.
    exists res. split; [done|]. split; [by exists d | by exists key].
  - split; [|split; [right; by eexists | done]].
    split; [done|]. intros (? & [= <-] & _ & (key' & Hk' & Hb')).
    rewrite Hk in Hk'. injection Hk' as <-. done.
Qed.

End ClientFacts.

(** [path.Base] on the keys a gateway returns. *)
Example path_Base_key : GoLib.path_Base "/apisix/ssls/00000000000000000042" = "00000000000000000042".
Proof. reflexivity. Qed.

Example path_Base_plain : GoLib.path_Base "42" = "42".
Proof. reflexivity. Qed.

Example path_Base_trailing : GoLib.path_Base "/apisix/ssls/42//" = "42".
Proof. reflexivity. Qed.

Example path_Base_edge :
  GoLib.path_Base "" = "." ∧ GoLib.path_Base "///" = "/".
Proof. split; reflexivity. Qed.

(** * Properties of the fingerprinter *)

Section FingerprintFacts.

Context `{!Crypto}.

Lemma digit_lower_hex n : (n < 16)%N → Hex.is_lower_hex (Hex.digit n) = true.
Proof.
  intros Hn.
  assert (n ∈ (N.of_nat <$> seq 0 16)) as Hin.
  { apply list_elem_of_fmap. exists (N.to_nat n). split; [lia|].
    apply elem_of_seq. lia. }
  revert Hin. generalize n. apply Forall_forall. vm_compute.
  repeat constructor.
Qed.

Lemma EncodeToString_lower_hex src :
  forallb Hex.is_lower_hex (String.list_ascii_of_string (Hex.EncodeToString src)) = true.
Proof.
  induction src as [|v src IH]; [done|]. simpl.
  rewrite IH, !andb_true_r. apply andb_true_iff. split; apply digit_lower_hex.
  - destruct v; vm_compute; reflexivity.
  - destruct v; vm_compute; reflexivity.
Qed.

Lemma EncodeToString_length src :
  String.length (Hex.EncodeToString src) = (2 * length src)%nat.
Proof. induction src as [|v src IH]; simpl; [done | rewrite IH; lia]. Qed.

(** C7: [GetSHA256] fails when [pem.Decode] finds no block and when the
    block does not parse as a certificate; otherwise it returns the
    hexadecimal encoding, in the digits 0-9 and a-f, two per byte, of
    [sha256.Sum256] applied to the certificate's [Raw] bytes (not to the PEM
    text); and two inputs whose certificates have the same raw bytes get the
    same fingerprint. *)
Theorem GetSHA256_fingerprint (certStr : string) :
  match pem_Decode (String.list_byte_of_string certStr) with
  | None => ∃ e, GetSHA256 certStr = Err e
  | Some block =>
      match x509_ParseCertificate block with
      | Err _ => ∃ e, GetSHA256 certStr = Err e
      | Ok cert =>
          GetSHA256 certStr = Ok (Hex.EncodeToString (sha256_Sum256 (Raw cert)))
      end
  end
  ∧ (∀ fp, GetSHA256 certStr = Ok fp →
       forallb Hex.is_lower_hex (String.list_ascii_of_string fp) = true ∧
       ∃ block cert,
         pem_Decode (String.list_byte_of_string certStr) = Some block ∧
         x509_ParseCertificate block = Ok cert ∧
         String.length fp = (2 * length (sha256_Sum256 (Raw cert)))%nat)
  ∧ (∀ certStr' block block' cert cert',
       pem_Decode (String.list_byte_of_string certStr) = Some block →
       pem_Decode (String.list_byte_of_string certStr') = Some block' →
       x509_ParseCertificate block = Ok cert →
       x509_ParseCertificate block' = Ok cert' →
       Raw cert = Raw cert' →
       GetSHA256 certStr = GetSHA256 certStr').
Proof.
  unfold GetSHA256. split; [|split].
  - destruct (pem_Decode _) as [block|]; [|by eexists].
    destruct (x509_ParseCertificate block); [done | by eexists].
  - intros fp. destruct (pem_Decode _) as [block|]; [|done].
    destruct (x509_ParseCertificate block) as [cert|] eqn:Hp; [|done].
    intros [= <-]. split; [apply EncodeToString_lower_hex|].
    exists block, cert. split; [done|]. split; [done|].
    apply EncodeToString_length.
  - intros certStr' block block' cert cert' -> -> -> -> ->. done.
Qed.

End FingerprintFacts.

(** C7 under the stand-in crypto library: text that starts with the tag
    0x30 is fingerprinted byte by byte, the empty text holds no block, and a
    block with another first byte does not parse. *)
Lemma GetSHA256_run :
  @GetSHA256 Run.plain_crypto "0c" = Ok "3063"
  ∧ (∃ e, @GetSHA256 Run.plain_crypto "" = Err e)
  ∧ (∃ e, @GetSHA256 Run.plain_crypto "c0" = Err e).
Proof.
  split; [|split].
  - apply (@GetSHA256_fingerprint Run.plain_crypto "0c").
  - apply (@GetSHA256_fingerprint Run.plain_crypto "").
  - apply (@GetSHA256_fingerprint Run.plain_crypto "c0").
Defined.

(** * Properties of the reconciler *)

Section ParamFacts.

Lemma assert_string_nonempty v :
  (let '(s, ok) := assert_string v in negb ok || String.eqb s "") = false →
  nonempty_string v.
Proof.
  destruct v as [[ | | |s| | ]|]; simpl; try done.
  destruct (String.eqb_spec s ""); [done|]. intros _. by exists s.
Qed.

Lemma convert_domains_Ok l : ∀ i d,
  convert_domains i l = Ok d → ∀ x, x ∈ l → ∃ s, x = AString s.
Proof.
  induction l as [|v l IH]; intros i d; simpl.
  - intros _ x Hx. inversion Hx.
  - destruct v as [ | | |s| | ]; simpl; try done.
    destruct (convert_domains (i + 1) l) as [d'|] eqn:Hc; [|done].
    intros _ x Hx. apply elem_of_cons in Hx as [->|Hx]; [by exists s|].
    by apply (IH _ _ Hc).
Qed.

Lemma convert_domains_strings l : ∀ i,
  (∀ x, x ∈ l → ∃ s, x = AString s) → ∃ d, convert_domains i l = Ok d.
Proof.
  induction l as [|v l IH]; intros i H; simpl; [by eexists|].
  destruct (H v) as [s ->]; [left|]. simpl.
  destruct (IH (i + 1)) as [d ->]; [|by eexists].
  intros x Hx. apply H. by right.
Qed.

(** The checks accept exactly the well-formed bundles. *)
Lemma check_params_Ok_iff cfg :
  (∃ p, check_params cfg = Ok p) ↔ well_formed_params cfg.
Proof.
  unfold check_params, well_formed_params. split.
  - intros [p Hp]. destruct cfg as [m|]; [|done]. exists m. split; [done|].
    destruct (assert_string (m !! "cert")) as [s1 ok1] eqn:H1.
    destruct (negb ok1 || String.eqb s1 "") eqn:E1; [done|].
    destruct (assert_string (m !! "key")) as [s2 ok2] eqn:H2.
    destruct (negb ok2 || String.eqb s2 "") eqn:E2; [done|].
    destruct (assert_string (m !! "admin_key")) as [s3 ok3] eqn:H3.
    destruct (negb ok3 || String.eqb s3 "") eqn:E3; [done|].
    destruct (assert_string (m !! "server_address")) as [s4 ok4] eqn:H4.
    destruct (negb ok4 || String.eqb s4 "") eqn:E4; [done|].
    repeat (split; [apply assert_string_nonempty;
                    by rewrite ?H1, ?H2, ?H3, ?H4|]).
    destruct (m !! "domain") as [[ | | | |l| ]|]; simpl in Hp; try done.
    destruct l as [|v l]; [done|].
    destruct (convert_domains 0 (v :: l)) as [d|] eqn:Hc; [|done].
    exists (v :: l). split; [done|]. split; [done|].
    by apply (convert_domains_Ok _ _ _ Hc).
  - intros (m & -> & (s1 & -> & Hs1) & (s2 & -> & Hs2) & (s3 & -> & Hs3) &
            (s4 & -> & Hs4) & (l & -> & Hl & Hstr)). simpl.
    destruct (String.eqb_spec s1 ""); [done|].
    destruct (String.eqb_spec s2 ""); [done|].
    destruct (String.eqb_spec s3 ""); [done|].
    destruct (String.eqb_spec s4 ""); [done|]. simpl.
    destruct l as [|v l]; [done|].
    destruct (convert_domains_strings (v :: l) 0 Hstr) as [d Hd].
    replace (length (v :: l) =? 0)%nat with false by done.
    rewrite Hd. by eexists.
Qed.

End ParamFacts.

Section ReconcilerFacts.

Context {W : Type} `{!Env W} `{!Crypto}.

Implicit Types (a : Auth) (st : State W) (cfg : option (gmap string any)).

Lemma listCertFromApisix_sends a st :
  (listCertFromApisix a st).2 =
  {| world := (http_json (list_request a) (world st)).2;
     calls := calls st ++ [list_request a];
     stdout := stdout st |}.
Proof.
  unfold listCertFromApisix, ApisixAPI, send, mbind, mret, M_bind, M_ret.
  change (GoLib.strings_ToUpper "GET") with "GET". simpl.
  fold (list_request a).
  by destruct (http_json (list_request a) (world st)).
Qed.

(** C8: a parameter bundle in which a required field is missing, empty or of
    the wrong type ([cert], [key], [admin_key], [server_address] non-empty
    strings, [domain] a non-empty list of strings; the nil bundle included)
    makes [Upload_bind] return an error and leave the state as it found it:
    no request is handed to the network. *)
Theorem Upload_bind_rejects_before_network cfg st :
  ¬ well_formed_params cfg →
  ∃ e, Upload_bind cfg st = (Err e, st).
Proof.
  intros Hnwf. unfold Upload_bind.
  destruct (check_params cfg) as [p|e] eqn:Hc.
  - exfalso. apply Hnwf, check_params_Ok_iff. by exists p.
  - by exists e.
Qed.

(** X20: The reuse branch: when the scan leaves a non-empty reuse candidate (the
    last listed object with [desc == note] and an Exact relation has a
    non-empty identifier), [Upload_bind] ends in the state the listing left:
    after the one GET it hands no request to the network, so no Create and
    no Delete, it prints nothing, and it returns success with the
    already-bound message. *)
Lemma reuse_candidate_no_mutation cfg st (p : Params) (sha : string)
    (certServer : list (gmap string any)) :
  check_params cfg = Ok p →
  GetSHA256 (certStr p) = Ok sha →
  (listCertFromApisix (NewAuth (adminKey p) (serverAddress p)) st).1 = Ok certServer →
  last_match_id ("allinssl-" +:+ sha) (domain p) certServer ≠ "" →
  Upload_bind cfg st =
    (Ok already_bound,
     (listCertFromApisix (NewAuth (adminKey p) (serverAddress p)) st).2)
  ∧ calls (Upload_bind cfg st).2 =
      calls st ++ [list_request (NewAuth (adminKey p) (serverAddress p))]
  ∧ stdout (Upload_bind cfg st).2 = stdout st.
Proof.
  intros Hc Hsha Hlist Hlast.
  assert (Upload_bind cfg st =
    (Ok already_bound,
     (listCertFromApisix (NewAuth (adminKey p) (serverAddress p)) st).2)) as Hrun.
  { unfold Upload_bind. rewrite Hc, Hsha.
    unfold mbind, M_bind.
    destruct (listCertFromApisix _ st) as [r st'] eqn:Hl. simpl in Hlist.
    subst r. simpl. unfold decide_and_apply.
    rewrite scan_certKey.
    destruct (String.eqb_spec
      (last_match_id ("allinssl-" +:+ sha) (domain p) certServer) "");
      [done|]. done. }
  rewrite Hrun. split; [done|]. simpl. by rewrite listCertFromApisix_sends.
Qed.

End ReconcilerFacts.

(** ** Worked runs against a scripted gateway *)

Lemma scripted_range_order_ok : @range_order_ok _ Run.scripted.
Proof. intros m. done. Qed.

(** C8 at four ill-formed bundles: the nil bundle, one without [key], one
    with an empty [admin_key] and one whose [domain] holds a number. Nothing
    is sent and the script of the gateway is untouched. *)
Lemma Upload_bind_rejects_run :
  (∃ e, @Upload_bind _ Run.scripted Run.plain_crypto None
          (initial [Run.listing []]) = (Err e, initial [Run.listing []]))
  ∧ (∃ e, @Upload_bind _ Run.scripted Run.plain_crypto
          (Some {[ "cert" := AString "0c" ]})
          (initial [Run.listing []]) = (Err e, initial [Run.listing []]))
  ∧ (∃ e, @Upload_bind _ Run.scripted Run.plain_crypto
          (Some {[ "cert" := AString "0c"; "key" := AString "k";
                   "admin_key" := AString "" ]})
          (initial [Run.listing []]) = (Err e, initial [Run.listing []]))
  ∧ (∃ e, @Upload_bind _ Run.scripted Run.plain_crypto
          (Some {[ "cert" := AString "0c"; "key" := AString "k";
                   "admin_key" := AString "secret";
                   "server_address" := AString "http://gw:9180/apisix/admin";
                   "domain" := ASlice [AString "a.com"; AFloat64 1] ]})
          (initial [Run.listing []]) = (Err e, initial [Run.listing []])).
Proof.
  split; [|split; [|split]];
    apply (@Upload_bind_rejects_before_network _ Run.scripted Run.plain_crypto).
  - intros (m & Hm & _). discriminate Hm.
  - intros (m & [= <-] & _ & (s & Hs & _) & _). vm_compute in Hs.
    discriminate Hs.
  - intros (m & [= <-] & _ & _ & (s & Hs & Hne) & _). vm_compute in Hs.
    injection Hs as <-. by apply Hne.
  - intros (m & [= <-] & _ & _ & _ & _ & (l & Hl & _ & Hstr)).
    vm_compute in Hl. injection Hl as <-.
    destruct (Hstr (AFloat64 1)) as [s Hs]; [right; left|]. discriminate Hs.
Defined.

(** The reuse branch at a gateway that lists one reusable object. *)
Lemma reuse_candidate_no_mutation_run :
  @Upload_bind _ Run.scripted Run.plain_crypto (Run.cfg ["a.com"])
    (initial [Run.listing [("k1", Run.entry "1" Run.note ["a.com"])]]) =
    (Ok already_bound,
     (@listCertFromApisix _ Run.scripted
        (NewAuth "secret" "http://gw:9180/apisix/admin")
        (initial [Run.listing [("k1", Run.entry "1" Run.note ["a.com"])]])).2)
  ∧ calls (@Upload_bind _ Run.scripted Run.plain_crypto (Run.cfg ["a.com"])
      (initial [Run.listing [("k1", Run.entry "1" Run.note ["a.com"])]])).2 =
      [] ++ [list_request (NewAuth "secret" "http://gw:9180/apisix/admin")]
  ∧ stdout (@Upload_bind _ Run.scripted Run.plain_crypto (Run.cfg ["a.com"])
      (initial [Run.listing [("k1", Run.entry "1" Run.note ["a.com"])]])).2 = [].
Proof.
  apply (@reuse_candidate_no_mutation _ Run.scripted Run.plain_crypto
           (Run.cfg ["a.com"])
           (initial [Run.listing [("k1", Run.entry "1" Run.note ["a.com"])]])
           {| certStr := "0c"; keyStr := "k"; adminKey := "secret";
              serverAddress := "http://gw:9180/apisix/admin";
              domain := ["a.com"] |}
           "3063"
           [Run.entry "1" Run.note ["a.com"]]).
  - vm_compute. reflexivity.
  - vm_compute. reflexivity.
  - vm_compute. reflexivity.
  - vm_compute. discriminate.
Defined.

(** C6 on the code: the gateway lists a reusable object with identifier "1"
    (same note, Exact relation) and, visited after it, a reusable object
    without identifier. The assignment [certKey = id] is not guarded by
    [id != ""] as the append to the deletion list is, so the second object
    overwrites the candidate with the empty string, and [Upload_bind] goes on
    to create a new object although the certificate is there. *)
Theorem reuse_candidate_lost :
  (@listCertFromApisix _ Run.scripted
     (NewAuth "secret" "http://gw:9180/apisix/admin")
     (initial [Run.listing [("k1", Run.entry "1" Run.note ["a.com"]);
                            ("k2", Run.entry_no_id Run.note ["a.com"])];
               Run.created "2"])).1 =
    Ok [Run.entry "1" Run.note ["a.com"]; Run.entry_no_id Run.note ["a.com"]]
  ∧ reuse_match Run.note ["a.com"] (Run.entry "1" Run.note ["a.com"]) = true
  ∧ cert_id (Run.entry "1" Run.note ["a.com"]) = "1"
  ∧ (@Upload_bind _ Run.scripted Run.plain_crypto (Run.cfg ["a.com"])
       (initial [Run.listing [("k1", Run.entry "1" Run.note ["a.com"]);
                              ("k2", Run.entry_no_id Run.note ["a.com"])];
                 Run.created "2"])).1 = Ok uploaded_and_bound
  ∧ calls (@Upload_bind _ Run.scripted Run.plain_crypto (Run.cfg ["a.com"])
       (initial [Run.listing [("k1", Run.entry "1" Run.note ["a.com"]);
                              ("k2", Run.entry_no_id Run.note ["a.com"])];
                 Run.created "2"])).2 = [Run.get_req; Run.post_req ["a.com"]].
Proof. vm_compute. repeat split; reflexivity. Qed.

(** C2 on the code: two stale objects are listed, the upload succeeds, the
    deletion of the first candidate fails ("reset by peer"). The rollback is
    attempted and the second candidate is left alone, but the error that
    comes back wraps the result of the ROLLBACK: its failure ("gateway
    timeout") when it fails, nil when it succeeds. The failure of the
    original deletion only reaches the first warning on standard output. *)
Theorem cleanup_error_wraps_rollback :
  @Upload_bind _ Run.scripted Run.plain_crypto (Run.cfg ["a.com"])
    (initial [Run.listing [("k1", Run.entry "old" Run.note ["x.com"]);
                           ("k2", Run.entry "old2" Run.note ["y.com"])];
              Run.created "new";
              Err (LibError "reset by peer");
              Err (LibError "gateway timeout");
              Run.deleted "/apisix/ssls/old2"]) =
    (Err (Errorf "failed to delete old cert %s: %w"
            [ArgString "old";
             ArgError (Some (Errorf "failed to call Apisix API: %w"
                               [ArgError (Some (LibError "gateway timeout"))]))]),
     {| world := [Run.deleted "/apisix/ssls/old2"];
        calls := [Run.get_req; Run.post_req ["a.com"];
                  Run.delete_req "old"; Run.delete_req "new"];
        stdout :=
          [("Warning: failed to delete cert %s: %v" +:+ LF,
            [ArgString "old";
             ArgError (Some (Errorf "failed to call Apisix API: %w"
                               [ArgError (Some (LibError "reset by peer"))]))]);
           ("Warning: failed to rollback cert %s: %v" +:+ LF,
            [ArgString "new";
             ArgError (Some (Errorf "failed to call Apisix API: %w"
                               [ArgError (Some (LibError "gateway timeout"))]))])] |})
  ∧ @Upload_bind _ Run.scripted Run.plain_crypto (Run.cfg ["a.com"])
    (initial [Run.listing [("k1", Run.entry "old" Run.note ["x.com"]);
                           ("k2", Run.entry "old2" Run.note ["y.com"])];
              Run.created "new";
              Err (LibError "reset by peer");
              Run.deleted "/apisix/ssls/new";
              Run.deleted "/apisix/ssls/old2"]) =
    (Err (Errorf "failed to delete old cert %s: %w"
            [ArgString "old"; ArgError None]),
     {| world := [Run.deleted "/apisix/ssls/old2"];
        calls := [Run.get_req; Run.post_req ["a.com"];
                  Run.delete_req "old"; Run.delete_req "new"];
        stdout :=
          [("Warning: failed to delete cert %s: %v" +:+ LF,
            [ArgString "old";
             ArgError (Some (Errorf "failed to call Apisix API: %w"
                               [ArgError (Some (LibError "reset by peer"))]))])] |}).
Proof. vm_compute. split; reflexivity. Qed.

(** ** The clean-up loop in general *)

Section CleanupFacts.

Context {W : Type} `{!Env W}.

Implicit Types (a : Auth) (st : State W).

(** Deletions that succeed are passed over. *)
Lemma delete_loop_app_ok a certKey l1 l2 : ∀ st st1,
  delete_loop a certKey l1 st = (None, st1) →
  delete_loop a certKey (l1 ++ l2) st = delete_loop a certKey l2 st1.
Proof.
  induction l1 as [|x l1 IH]; intros st st1; simpl.
  - by intros [= <-].
  - unfold mbind, M_bind.
    destruct (DeleteCertFromApisix a x st) as [[b|err] st'].
    + apply IH.
    + simpl. destruct (DeleteCertFromApisix a certKey _) as [[b|err'] st''];
        simpl; done.
Qed.

(** At the first deletion that fails the loop prints a warning, sends the
    rollback DELETE for the new object and returns at once, whatever is left
    to delete; the operand of [%w] in the error it returns is the outcome of
    the rollback, not the failure [err] of the deletion. *)
Lemma delete_loop_failure a certKey x l2 st err st2 :
  DeleteCertFromApisix a x st = (Err err, st2) →
  (delete_loop a certKey (x :: l2) st).1 =
    Some (Errorf "failed to delete old cert %s: %w"
            [ArgString x;
             ArgError (err_of (DeleteCertFromApisix a certKey
               (Printf ("Warning: failed to delete cert %s: %v" +:+ LF)
                  [ArgString x; ArgError (Some err)] st2).2).1)])
  ∧ calls (delete_loop a certKey (x :: l2) st).2 =
      calls st ++ [delete_request a x; delete_request a certKey].
Proof.
  intros Hdel. simpl. unfold mbind, M_bind. rewrite Hdel. simpl.
  pose proof (DeleteCertFromApisix_sends a x st) as Hs1.
  rewrite Hdel in Hs1. simpl in Hs1.
  set (st3 := {| world := world st2; calls := calls st2;
                 stdout := stdout st2 ++ _ |}).
  pose proof (DeleteCertFromApisix_sends a certKey st3) as Hs2.
  destruct (DeleteCertFromApisix a certKey st3) as [[b|err'] st4]; simpl in *;
    (split; [done|]); rewrite Hs2; simpl; rewrite Hs1; simpl;
    by rewrite <- app_assoc.
Qed.

End CleanupFacts.

(** C9 at two answers of the gateway: a confirmation whose key ends in the
    requested identifier, and one for another identifier. *)
Lemma DeleteCertFromApisix_run :
  (@DeleteCertFromApisix _ Run.scripted
     (NewAuth "secret" "http://gw:9180/apisix/admin") "42"
     (initial [Run.deleted "/apisix/ssls/42"])).1 = Ok true
  ∧ (@DeleteCertFromApisix _ Run.scripted
       (NewAuth "secret" "http://gw:9180/apisix/admin") "42"
       (initial [Run.deleted "/apisix/ssls/43"])).1 =
    Err (Errorf "deleted key mismatch: expected %s, got %s"
           [ArgString "42"; ArgString "/apisix/ssls/43"]).
Proof.
  split.
  - apply (@DeleteCertFromApisix_success_iff _ Run.scripted).
    exists {[ "deleted" := AString "1"; "key" := AString "/apisix/ssls/42" ]}.
    split; [reflexivity|]. split.
    + exists "1". vm_compute. reflexivity.
    + exists "/apisix/ssls/42". split; vm_compute; reflexivity.
  - vm_compute. reflexivity.
Defined.

(** * Further properties of the classifier *)

Section ClassifierMore.

Implicit Types (a b c : list string).

Lemma relation_eq_by_cases (x y : Z) :
  (x = Disjoint ∨ x = Partial ∨ x = Exact) →
  (y = Disjoint ∨ y = Partial ∨ y = Exact) →
  (x = Exact ↔ y = Exact) → (x = Partial ↔ y = Partial) → x = y.
Proof.
  unfold Disjoint, Partial, Exact.
  intros [-> | [-> | ->]] [-> | [-> | ->]] [H1 H2] [H3 H4]; try done;
    try (by specialize (H1 eq_refl)); try (by specialize (H2 eq_refl));
    try (by specialize (H3 eq_refl)); by specialize (H4 eq_refl).
Qed.

(** X1: A non-empty list of names is Exact against itself. *)
Theorem compareSliceRelation_refl a :
  a ≠ [] → compareSliceRelation a a = Exact.
Proof.
  intros Hne. rewrite compareSliceRelation_refines.
  by apply Classify_spec_Exact.
Qed.

(** X2: The result does not depend on the order of either list: the source calls
    the comparison order-insensitive. *)
Theorem compareSliceRelation_perm a a' b b' :
  a ≡ₚ a' → b ≡ₚ b' →
  compareSliceRelation a b = compareSliceRelation a' b'.
Proof.
  intros Ha Hb. rewrite !compareSliceRelation_refines.
  apply relation_eq_by_cases; try apply Classify_spec_range.
  - rewrite !Classify_spec_Exact. split.
    + intros [Hne Hp]. split; [|by rewrite <- Ha, <- Hb].
      intros ->. apply Hne. by apply Permutation_nil_r.
    + intros [Hne Hp]. split; [|by rewrite Ha, Hb].
      intros ->. apply Hne. symmetry in Ha. by apply Permutation_nil_r.
  - rewrite !Classify_spec_Partial.
    split; intros [(s & H1 & H2) Hn]; split.
    + exists s. by rewrite <- Ha, <- Hb.
    + intros Hp. apply Hn. by rewrite Ha, Hb.
    + exists s. by rewrite Ha, Hb.
    + intros Hp. apply Hn. by rewrite <- Ha, <- Hb.
Qed.

(** X3: The result is one of the three codes, and it is 0 exactly when the two
    lists have no name in common (an empty list has none). *)
Theorem compareSliceRelation_Disjoint_iff a b :
  (compareSliceRelation a b = Disjoint ∨ compareSliceRelation a b = Partial ∨
   compareSliceRelation a b = Exact)
  ∧ (compareSliceRelation a b = Disjoint ↔ ¬ ∃ s, s ∈ a ∧ s ∈ b).
Proof.
  rewrite !compareSliceRelation_refines. split; [apply Classify_spec_range|].
  pose proof (Classify_spec_Exact a b) as HE.
  pose proof (Classify_spec_Partial a b) as HP.
  destruct (Classify_spec_range a b) as [H|[H|H]]; rewrite H.
  - split; [|done]. intros _ Hs.
    destruct (decide (Classify_spec a b = Exact)) as [He|He].
    { rewrite H in He. done. }
    assert (Classify_spec a b = Partial) as Hp; [|by rewrite H in Hp].
    apply HP. split; [done|]. intros Hperm. apply He, HE. split; [|done].
    destruct Hs as (s & Hs & _). intros ->. inversion Hs.
  - split; [done|]. intros Hn. exfalso. apply Hn. by apply HP.
  - split; [done|]. intros Hn. exfalso. apply Hn.
    apply HE in H as [Hne Hperm]. destruct a as [|x a]; [done|].
    exists x. split; [left|]. rewrite <- Hperm. left.
Qed.

(** X4: A list against itself extended by further names is Partial, whichever
    side carries the extra names: a certificate object bound to more (or
    fewer) names than wanted overlaps, it does not match. *)
Theorem compareSliceRelation_extended a c :
  a ≠ [] → c ≠ [] →
  compareSliceRelation (a ++ c) a = Partial ∧
  compareSliceRelation a (a ++ c) = Partial.
Proof.
  intros Ha Hc. rewrite !compareSliceRelation_refines.
  assert (length (a ++ c) ≠ length a) as Hlen.
  { rewrite length_app. destruct c; [done|]. simpl. lia. }
  destruct a as [|x a]; [done|].
  split; apply Classify_spec_Partial; (split; [exists x; split; left|]);
    intros Hp; apply Permutation_length in Hp; simpl in *; lia.
Qed.

End ClassifierMore.

Lemma compareSliceRelation_refl_run :
  compareSliceRelation ["b.com"; "a.com"; "a.com"] ["b.com"; "a.com"; "a.com"] = Exact.
Proof. by apply compareSliceRelation_refl. Defined.

Lemma compareSliceRelation_perm_run :
  compareSliceRelation ["a.com"; "b.com"] ["c.com"; "a.com"] =
  compareSliceRelation ["b.com"; "a.com"] ["a.com"; "c.com"].
Proof. apply compareSliceRelation_perm; apply Permutation_swap. Defined.

Lemma compareSliceRelation_extended_run :
  compareSliceRelation (["a.com"] ++ ["b.com"]) ["a.com"] = Partial ∧
  compareSliceRelation ["a.com"] (["a.com"] ++ ["b.com"]) = Partial.
Proof. by apply compareSliceRelation_extended. Defined.

(** * Further properties of the fingerprinter *)

Section FingerprintMore.

Context `{!Crypto}.

Lemma byte_digits v :
  HexRead.value (Hex.digit (N.shiftr (Byte.to_N v) 4)) = Some (N.shiftr (Byte.to_N v) 4)
  ∧ HexRead.value (Hex.digit (N.land (Byte.to_N v) 15)) = Some (N.land (Byte.to_N v) 15)
  ∧ Byte.of_N (16 * N.shiftr (Byte.to_N v) 4 + N.land (Byte.to_N v) 15) = Some v.
Proof. destruct v; vm_compute; done. Qed.

Lemma decode_EncodeToString src :
  HexRead.decode (Hex.EncodeToString src) = Some src.
Proof.
  induction src as [|v src IH]; [done|].
  destruct (byte_digits v) as (Hh & Hl & Hv).
  cbn [Hex.EncodeToString HexRead.decode]. by rewrite Hh, Hl, IH, Hv.
Qed.

(** X5: The fingerprint holds the whole digest: reading the hexadecimal string
    back gives the digest of the certificate's raw bytes, so two inputs get
    the same fingerprint, and the same note, exactly when their digests are
    equal. *)
Theorem fingerprint_reads_back (s1 s2 f1 f2 : string) :
  GetSHA256 s1 = Ok f1 → GetSHA256 s2 = Ok f2 →
  ∃ b1 c1 b2 c2,
    pem_Decode (String.list_byte_of_string s1) = Some b1 ∧
    x509_ParseCertificate b1 = Ok c1 ∧
    pem_Decode (String.list_byte_of_string s2) = Some b2 ∧
    x509_ParseCertificate b2 = Ok c2 ∧
    HexRead.decode f1 = Some (sha256_Sum256 (Raw c1)) ∧
    HexRead.decode f2 = Some (sha256_Sum256 (Raw c2)) ∧
    (f1 = f2 ↔ sha256_Sum256 (Raw c1) = sha256_Sum256 (Raw c2)) ∧
    ("allinssl-" +:+ f1 = "allinssl-" +:+ f2 ↔
     sha256_Sum256 (Raw c1) = sha256_Sum256 (Raw c2)).
Proof.
  unfold GetSHA256.
  destruct (pem_Decode (String.list_byte_of_string s1)) as [b1|]; [|done].
  destruct (x509_ParseCertificate b1) as [c1|] eqn:Hp1; [|done].
  destruct (pem_Decode (String.list_byte_of_string s2)) as [b2|]; [|done].
  destruct (x509_ParseCertificate b2) as [c2|] eqn:Hp2; [|done].
  intros [= <-] [= <-]. exists b1, c1, b2, c2.
  repeat (split; [done || apply decode_EncodeToString|]).
  assert (Hex.EncodeToString (sha256_Sum256 (Raw c1)) =
          Hex.EncodeToString (sha256_Sum256 (Raw c2)) ↔
          sha256_Sum256 (Raw c1) = sha256_Sum256 (Raw c2)) as Hinj.
  { split; [|by intros ->]. intros Heq.
    pose proof (decode_EncodeToString (sha256_Sum256 (Raw c1))) as H1.
    rewrite Heq, decode_EncodeToString in H1. by injection H1. }
  split; [done|]. rewrite <- Hinj. split; [|by intros ->].
  intros Heq. by simplify_eq/=.
Qed.

End FingerprintMore.

Lemma fingerprint_reads_back_run :
  ∃ b1 c1 b2 c2,
    @pem_Decode Run.plain_crypto (String.list_byte_of_string "0c") = Some b1 ∧
    @x509_ParseCertificate Run.plain_crypto b1 = Ok c1 ∧
    @pem_Decode Run.plain_crypto (String.list_byte_of_string "0d") = Some b2 ∧
    @x509_ParseCertificate Run.plain_crypto b2 = Ok c2 ∧
    HexRead.decode "3063" = Some (@sha256_Sum256 Run.plain_crypto (@Raw Run.plain_crypto c1)) ∧
    HexRead.decode "3064" = Some (@sha256_Sum256 Run.plain_crypto (@Raw Run.plain_crypto c2)) ∧
    ("3063" = "3064" ↔
     @sha256_Sum256 Run.plain_crypto (@Raw Run.plain_crypto c1) =
     @sha256_Sum256 Run.plain_crypto (@Raw Run.plain_crypto c2)) ∧
    ("allinssl-" +:+ "3063" = "allinssl-" +:+ "3064" ↔
     @sha256_Sum256 Run.plain_crypto (@Raw Run.plain_crypto c1) =
     @sha256_Sum256 Run.plain_crypto (@Raw Run.plain_crypto c2)).
Proof.
  apply (@fingerprint_reads_back Run.plain_crypto "0c" "0d" "3063" "3064");
    vm_compute; reflexivity.
Defined.

(** * Further properties of the remote store client *)

Section PathFacts.

Lemma upto_slash_no_slash l : Forall (λ c, GoLib.is_slash c = false) (GoLib.upto_slash l).
Proof.
  induction l as [|c l IH]; simpl; [constructor|].
  destruct (GoLib.is_slash c) eqn:Hc; by constructor.
Qed.

(** [path.Base] never gives the empty string, and but for the lone slash
    its result holds no slash. *)
Lemma path_Base_shape p :
  GoLib.path_Base p ≠ "" ∧
  (GoLib.path_Base p = "/" ∨
   "/"%char ∉ String.list_ascii_of_string (GoLib.path_Base p)).
Proof.
  unfold GoLib.path_Base. destruct (String.eqb p "").
  { split; [done|]. right. vm_compute. intros H.
    apply list_elem_of_singleton in H. done. }
  set (seg := GoLib.upto_slash _).
  pose proof (upto_slash_no_slash
    (GoLib.drop_slashes (rev (String.list_ascii_of_string p)))) as Hns.
  fold seg in Hns. case_bool_decide as Hl; [split; [done | by left]|].
  split.
  - intros Heq.
    apply (f_equal String.list_ascii_of_string) in Heq.
    rewrite String.list_ascii_of_string_of_list_ascii in Heq. simpl in Heq.
    apply Hl. destruct seg as [|c seg']; [done|].
    simpl in Heq. by destruct (rev seg').
  - right. rewrite String.list_ascii_of_string_of_list_ascii.
    intros Hin. apply list_elem_of_In, in_rev, list_elem_of_In in Hin.
    rewrite Forall_forall in Hns. specialize (Hns _ Hin). done.
Qed.

End PathFacts.

Section ClientMore.

Context {W : Type} `{!Env W}.

Implicit Types (a : Auth) (st : State W).

Lemma uploadCertToApisix_sends a cert key note domain st :
  (uploadCertToApisix a cert key note domain st).2 =
  {| world := (http_json (create_request a cert key note domain) (world st)).2;
     calls := calls st ++ [create_request a cert key note domain];
     stdout := stdout st |}.
Proof.
  unfold uploadCertToApisix, ApisixAPI, send, mbind, mret, M_bind, M_ret.
  change (GoLib.strings_ToUpper "POST") with "POST". simpl.
  fold (create_request a cert key note domain).
  by destruct (http_json (create_request a cert key note domain) (world st)).
Qed.

(** X6: [uploadCertToApisix] sends one POST with the certificate, the key, the
    note as [desc] and the names as [snis]; it returns an identifier exactly
    when the gateway answered with [code] 200 and a [data] object whose
    [key] is a string, and then it returns that string as it is, the empty
    string included; otherwise it returns an error. *)
Theorem uploadCertToApisix_success_iff a (cert key note : string)
    (domain : list string) st (certKey : string) :
  ((uploadCertToApisix a cert key note domain st).1 = Ok certKey ↔
     ∃ res, (http_json (create_request a cert key note domain) (world st)).1 = Ok res ∧
            announces_key res certKey)
  ∧ calls (uploadCertToApisix a cert key note domain st).2 =
      calls st ++ [create_request a cert key note domain]
  ∧ stdout (uploadCertToApisix a cert key note domain st).2 = stdout st.
Proof.
  rewrite uploadCertToApisix_sends. split; [|done].
  unfold uploadCertToApisix, ApisixAPI, send, mbind, mret, M_bind, M_ret.
  change (GoLib.strings_ToUpper "POST") with "POST". simpl.
  fold (create_request a cert key note domain). unfold announces_key.
  destruct (http_json (create_request a cert key note domain) (world st))
    as [[res|err] w']; simpl.
  2: { split; [done | intros (? & ? & _); done]. }
  unfold assert_float64, assert_map, assert_string.
  destruct (res !! "code") as [[ | |code| | | ]|] eqn:Hc; simpl;
    try (split; [done | intros (? & [= <-] & (? & Hc' & _) & _); congruence]).
  destruct (PrimFloat.eqb code 200) eqn:H200; simpl.
  2: { split; [done|]. intros (? & [= <-] & (code' & Hc' & H200') & _).
       rewrite Hc in Hc'. injection Hc' as <-. congruence. }
  destruct (res !! "data") as [[ | | | | |data]|] eqn:Hd; simpl;
    try (split; [done | intros (? & [= <-] & _ & (? & Hd' & _)); congruence]).
  destruct (data !! "key") as [[ | | |k| | ]|] eqn:Hk; simpl;
    try (split; [done|]; intros (? & [= <-] & _ & (data' & Hd' & Hk'));
         rewrite Hd in Hd'; injection Hd' as <-; congruence).
  split.
  - intros [= <-]. exists res. split; [done|]. split; [by exists code|].
    by exists data.
  - intros (? & [= <-] & _ & (data' & Hd' & Hk')).
    rewrite Hd in Hd'. injection Hd' as <-. congruence.
Qed.

(** X7: No answer of the gateway makes [DeleteCertFromApisix] succeed for the
    empty identifier or for one with a slash in it: [path.Base] of the
    returned key is never such a string. *)
Theorem DeleteCertFromApisix_unconfirmable a (certKey : string) st :
  unconfirmable certKey →
  ∃ e, (DeleteCertFromApisix a certKey st).1 = Err e.
Proof.
  intros Hbad. rewrite DeleteCertFromApisix_result.
  destruct (http_json _ _).1 as [res|err]; [|by eexists].
  destruct (res !! "deleted") as [[ | | |d| | ]|]; try by eexists.
  destruct (res !! "key") as [[ | | |key| | ]|]; try by eexists.
  destruct (String.eqb_spec (GoLib.path_Base key) certKey) as [Hb|Hb];
    [|by eexists].
  exfalso. destruct (path_Base_shape key) as [Hne Hsl]. rewrite Hb in Hne, Hsl.
  destruct Hbad as [->|[Hns Hin]]; [done|]. by destruct Hsl.
Qed.

End ClientMore.

Lemma uploadCertToApisix_run :
  (@uploadCertToApisix _ Run.scripted
     (NewAuth "secret" "http://gw:9180/apisix/admin") "0c" "k" Run.note ["a.com"]
     (initial [Run.created "7"])).1 = Ok "7".
Proof.
  apply (@uploadCertToApisix_success_iff _ Run.scripted).
  exists {[ "code" := AFloat64 200; "data" := AMap {[ "key" := AString "7" ]} ]}.
  split; [reflexivity|]. split.
  - exists 200%float. split; vm_compute; reflexivity.
  - exists {[ "key" := AString "7" ]}. split; vm_compute; reflexivity.
Defined.

Lemma DeleteCertFromApisix_unconfirmable_run :
  (∃ e, (@DeleteCertFromApisix _ (Sim.gateway [] "n")
           (NewAuth "secret" "http://gw:9180/apisix/admin") ""
           (initial ())).1 = Err e)
  ∧ (∃ e, (@DeleteCertFromApisix _ (Sim.gateway [] "n")
           (NewAuth "secret" "http://gw:9180/apisix/admin") "/apisix/ssls/7"
           (initial ())).1 = Err e).
Proof.
  split; apply (@DeleteCertFromApisix_unconfirmable _ (Sim.gateway [] "n")).
  - by left.
  - right. split; [done|]. vm_compute. left.
Defined.

Section ListingFacts.

Context {W : Type} `{!Env W}.

Implicit Types (a : Auth) (st : State W).

Lemma listCertFromApisix_result a st :
  (listCertFromApisix a st).1 =
  match (http_json (list_request a) (world st)).1 with
  | Err err => Err (Errorf "failed to call Cloud API: %w" [ArgError (Some err)])
  | Ok res =>
      match res !! "list" with
      | Some (AMap lst) => collect_certs (range_order lst) []
      | _ => Err (Errorf "invalid response format: data not found" [])
      end
  end.
Proof.
  unfold listCertFromApisix, ApisixAPI, send, mbind, mret, M_bind, M_ret.
  change (GoLib.strings_ToUpper "GET") with "GET". simpl.
  fold (list_request a).
  destruct (http_json (list_request a) (world st)) as [[res|err] w'];
    simpl; [|done].
  by destruct (res !! "list") as [[]|].
Qed.

Lemma collect_certs_all_maps items : ∀ acc,
  Forall (λ kv : string * any, ∃ m, kv.2 = AMap m) items →
  ∃ cs, collect_certs items acc = Ok (acc ++ cs) ∧ AMap <$> cs = items.*2.
Proof.
  induction items as [|[k v] items IH]; intros acc Hall; simpl.
  - exists []. by rewrite app_nil_r.
  - apply Forall_cons in Hall as [[m Hm] Hall]. simpl in Hm. subst v. simpl.
    destruct (IH (acc ++ [m]) Hall) as (cs & -> & Hcs).
    exists (m :: cs). rewrite <- app_assoc. split; [done|].
    rewrite !fmap_cons. by rewrite Hcs.
Qed.

Lemma collect_certs_not_map items : ∀ acc,
  Exists (λ kv : string * any, ∀ m, kv.2 ≠ AMap m) items →
  ∃ e, collect_certs items acc = Err e.
Proof.
  induction items as [|[k v] items IH]; intros acc Hex; simpl.
  - inversion Hex.
  - destruct v as [ | | | | |m]; simpl; try by eexists.
    apply Exists_cons in Hex as [Hbad|Hex]; [by destruct (Hbad m)|].
    by apply IH.
Qed.

(** X8: [listCertFromApisix] on an answer of the gateway: without a [list]
    object it fails; when every entry of [list] is an object it returns
    those entries, each once, in the order the runtime visits the map; when
    some entry is not an object it fails whatever that order is. *)
Theorem listCertFromApisix_entries a st (res : gmap string any) :
  range_order_ok →
  (http_json (list_request a) (world st)).1 = Ok res →
  ((∀ lst, res !! "list" ≠ Some (AMap lst)) →
     ∃ e, (listCertFromApisix a st).1 = Err e)
  ∧ (∀ lst, res !! "list" = Some (AMap lst) →
       (∀ k v, lst !! k = Some v → ∃ m, v = AMap m) →
       ∃ certs, (listCertFromApisix a st).1 = Ok certs ∧
                AMap <$> certs ≡ₚ (map_to_list lst).*2 ∧
                length certs = size lst)
  ∧ (∀ lst k v, res !! "list" = Some (AMap lst) →
       lst !! k = Some v → (∀ m, v ≠ AMap m) →
       ∃ e, (listCertFromApisix a st).1 = Err e).
Proof.
  intros Hord Hres. rewrite listCertFromApisix_result, Hres.
  split; [|split].
  - intros Hno. destruct (res !! "list") as [[ | | | | |lst]|]; try by eexists.
    by destruct (Hno lst).
  - intros lst -> Hmaps.
    destruct (collect_certs_all_maps (range_order lst) []) as (cs & -> & Hcs).
    { apply Forall_forall. intros [k v] Hin. simpl.
      rewrite (Hord lst) in Hin. apply elem_of_map_to_list in Hin. eauto. }
    exists cs. split; [done|]. split.
    + rewrite Hcs. by rewrite (Hord lst).
    + apply (f_equal length) in Hcs. rewrite !length_fmap in Hcs.
      rewrite Hcs, (Hord lst). apply length_map_to_list.
  - intros lst k v -> Hkv Hbad. apply collect_certs_not_map.
    apply Exists_exists. exists (k, v). split; [|done].
    rewrite (Hord lst). by apply elem_of_map_to_list.
Qed.

End ListingFacts.

Lemma listCertFromApisix_run :
  ∃ certs,
    (@listCertFromApisix _ Run.scripted
       (NewAuth "secret" "http://gw:9180/apisix/admin")
       (initial [Run.listing [("k1", Run.entry "1" "n" ["a.com"]);
                              ("k2", Run.entry "2" "n" ["b.com"])]])).1 = Ok certs ∧
    AMap <$> certs ≡ₚ
      (map_to_list (list_to_map (M := gmap string any)
         [("k1", AMap (Run.entry "1" "n" ["a.com"]));
          ("k2", AMap (Run.entry "2" "n" ["b.com"]))])).*2 ∧
    length certs =
      size (list_to_map (M := gmap string any)
         [("k1", AMap (Run.entry "1" "n" ["a.com"]));
          ("k2", AMap (Run.entry "2" "n" ["b.com"]))]).
Proof.
  refine (proj1 (proj2 (@listCertFromApisix_entries _ Run.scripted
    (NewAuth "secret" "http://gw:9180/apisix/admin")
    (initial [Run.listing [("k1", Run.entry "1" "n" ["a.com"]);
                           ("k2", Run.entry "2" "n" ["b.com"])]])
    {[ "list" := AMap (list_to_map
         [("k1", AMap (Run.entry "1" "n" ["a.com"]));
          ("k2", AMap (Run.entry "2" "n" ["b.com"]))]) ]}
    scripted_range_order_ok eq_refl)) _ _ _).
  - vm_compute. reflexivity.
  - intros k v Hkv.
    apply elem_of_list_to_map_2 in Hkv.
    apply elem_of_cons in Hkv as [[= -> ->]|Hkv]; [by eexists|].
    apply list_elem_of_singleton in Hkv as [= -> ->]. by eexists.
Defined.

(** * Further properties of the parameter checks *)

Section ParamMore.

Lemma assert_string_accepts v s ok :
  assert_string v = (s, ok) → negb ok || String.eqb s "" = false →
  v = Some (AString s) ∧ s ≠ "".
Proof.
  destruct v as [[ | | |s'| | ]|]; simpl; intros [= <- <-]; try done.
  destruct (String.eqb_spec s' ""); [done|]. done.
Qed.

Lemma convert_domains_fmap l : ∀ i d,
  convert_domains i l = Ok d → l = AString <$> d.
Proof.
  induction l as [|v l IH]; intros i d; simpl.
  - by intros [= <-].
  - destruct v as [ | | |s| | ]; simpl; try done.
    destruct (convert_domains (i + 1) l) as [d'|] eqn:Hc; [|done].
    intros [= <-]. by rewrite (IH _ _ Hc).
Qed.

(** X9: What the checks let through is what the bundle holds: the four strings
    as they are, none of them empty, and the names of [domain] in their
    order, at least one. *)
Theorem check_params_carries (cfg : option (gmap string any)) (p : Params) :
  check_params cfg = Ok p →
  ∃ m, cfg = Some m ∧
    m !! "cert" = Some (AString (certStr p)) ∧ certStr p ≠ "" ∧
    m !! "key" = Some (AString (keyStr p)) ∧ keyStr p ≠ "" ∧
    m !! "admin_key" = Some (AString (adminKey p)) ∧ adminKey p ≠ "" ∧
    m !! "server_address" = Some (AString (serverAddress p)) ∧
    serverAddress p ≠ "" ∧
    m !! "domain" = Some (ASlice (AString <$> domain p)) ∧ domain p ≠ [].
Proof.
  unfold check_params. destruct cfg as [m|]; [|done]. intros Hp. exists m.
  split; [done|].
  destruct (assert_string (m !! "cert")) as [s1 ok1] eqn:H1.
  destruct (negb ok1 || String.eqb s1 "") eqn:E1; [done|].
  destruct (assert_string (m !! "key")) as [s2 ok2] eqn:H2.
  destruct (negb ok2 || String.eqb s2 "") eqn:E2; [done|].
  destruct (assert_string (m !! "admin_key")) as [s3 ok3] eqn:H3.
  destruct (negb ok3 || String.eqb s3 "") eqn:E3; [done|].
  destruct (assert_string (m !! "server_address")) as [s4 ok4] eqn:H4.
  destruct (negb ok4 || String.eqb s4 "") eqn:E4; [done|].
  destruct (assert_string_accepts _ _ _ H1 E1) as [-> ?].
  destruct (assert_string_accepts _ _ _ H2 E2) as [-> ?].
  destruct (assert_string_accepts _ _ _ H3 E3) as [-> ?].
  destruct (assert_string_accepts _ _ _ H4 E4) as [-> ?].
  destruct (m !! "domain") as [[ | | | |l| ]|]; simpl in Hp; try done.
  destruct l as [|v l]; [done|].
  destruct (convert_domains 0 (v :: l)) as [d|] eqn:Hc; [|done].
  simpl in Hp. injection Hp as <-. simpl.
  rewrite (convert_domains_fmap _ _ _ Hc). repeat (split; [done|]).
  intros ->. by apply convert_domains_fmap in Hc.
Qed.

Lemma convert_domains_first_bad pre v rest : ∀ i,
  (∀ s, v ≠ AString s) →
  convert_domains i ((AString <$> pre) ++ v :: rest) =
  Err (Errorf "element at index %d is not a string"
         [ArgInt (i + Z.of_nat (length pre))]).
Proof.
  induction pre as [|s pre IH]; intros i Hv; simpl.
  - destruct v as [ | | |s| | ]; simpl; rewrite ?Z.add_0_r; try done.
    by destruct (Hv s).
  - rewrite IH by done. do 3 f_equal. f_equal. lia.
Qed.

(** X10: A [domain] list with an element that is not a string is refused with
    the index of the first such element, whatever comes after it. *)
Theorem check_params_first_bad_domain (m : gmap string any)
    (pre : list string) (v : any) (rest : list any) :
  nonempty_string (m !! "cert") → nonempty_string (m !! "key") →
  nonempty_string (m !! "admin_key") → nonempty_string (m !! "server_address") →
  m !! "domain" = Some (ASlice ((AString <$> pre) ++ v :: rest)) →
  (∀ s, v ≠ AString s) →
  check_params (Some m) =
    Err (Errorf "element at index %d is not a string"
           [ArgInt (Z.of_nat (length pre))]).
Proof.
  intros (s1 & H1 & N1) (s2 & H2 & N2) (s3 & H3 & N3) (s4 & H4 & N4) Hd Hv.
  unfold check_params. rewrite H1, H2, H3, H4, Hd. simpl.
  destruct (String.eqb_spec s1 ""); [done|].
  destruct (String.eqb_spec s2 ""); [done|].
  destruct (String.eqb_spec s3 ""); [done|].
  destruct (String.eqb_spec s4 ""); [done|]. simpl.
  rewrite (convert_domains_first_bad pre v rest 0 Hv).
  replace (length ((AString <$> pre) ++ v :: rest) =? 0)%nat with false.
  - done.
  - rewrite length_app. simpl. symmetry. apply Nat.eqb_neq. lia.
Qed.

End ParamMore.

Lemma check_params_carries_run :
  ∃ m, Run.cfg ["a.com"; "b.com"] = Some m ∧
    m !! "cert" = Some (AString "0c") ∧ "0c" ≠ "" ∧
    m !! "key" = Some (AString "k") ∧ "k" ≠ "" ∧
    m !! "admin_key" = Some (AString "secret") ∧ "secret" ≠ "" ∧
    m !! "server_address" = Some (AString "http://gw:9180/apisix/admin") ∧
    "http://gw:9180/apisix/admin" ≠ "" ∧
    m !! "domain" = Some (ASlice (AString <$> ["a.com"; "b.com"])) ∧
    ["a.com"; "b.com"] ≠ [].
Proof.
  apply (check_params_carries (Run.cfg ["a.com"; "b.com"])
           {| certStr := "0c"; keyStr := "k"; adminKey := "secret";
              serverAddress := "http://gw:9180/apisix/admin";
              domain := ["a.com"; "b.com"] |}).
  vm_compute. reflexivity.
Defined.

Lemma check_params_first_bad_domain_run :
  check_params
    (Some {[ "cert" := AString "0c"; "key" := AString "k";
             "admin_key" := AString "secret";
             "server_address" := AString "http://gw:9180/apisix/admin";
             "domain" := ASlice ((AString <$> ["a.com"; "b.com"]) ++
                                 ABool true :: [AFloat64 1; AString "c.com"]) ]}) =
    Err (Errorf "element at index %d is not a string"
           [ArgInt (Z.of_nat (length ["a.com"; "b.com"]))]).
Proof.
  apply (check_params_first_bad_domain _ ["a.com"; "b.com"] (ABool true)
           [AFloat64 1; AString "c.com"]).
  - exists "0c". split; [vm_compute; reflexivity | done].
  - exists "k". split; [vm_compute; reflexivity | done].
  - exists "secret". split; [vm_compute; reflexivity | done].
  - exists "http://gw:9180/apisix/admin". split; [vm_compute; reflexivity | done].
  - vm_compute. reflexivity.
  - done.
Defined.

(** * Further properties of the scan *)

Section ScanMore.

Variables (note : string) (domain : list string).

Implicit Types (st : Scan) (cert : gmap string any).

Lemma marked_cert_id cert x : marked note domain cert x → cert_id cert = x.
Proof. intros (value & Hv & Hid & _). by rewrite (cert_id_value _ _ Hv). Qed.

(** X11: The candidate deletion set does not depend on the order in which the
    listing is visited: two orders of the same listing give the same
    identifiers, each once. *)
Theorem scan_deletion_set_order_free (certServer certServer' : list (gmap string any)) :
  certServer ≡ₚ certServer' →
  deleteCertKeyList (scan note domain certServer) ≡ₚ
  deleteCertKeyList (scan note domain certServer').
Proof.
  intros Hp.
  destruct (scan_from_inv note domain certServer scan_init scan_inv_init)
    as [[Hnd _] Hel].
  destruct (scan_from_inv note domain certServer' scan_init scan_inv_init)
    as [[Hnd' _] Hel'].
  apply NoDup_Permutation; [done | done |]. intros x. unfold scan.
  rewrite Hel, Hel'. split; (intros [H|(c & Hc & Hm)]; [inversion H|]);
    right; exists c; (split; [|done]).
  - by rewrite <- Hp.
  - by rewrite Hp.
Qed.

(** X12: The identifiers are scheduled in the order of the listing: the
    deletion list is a subsequence of the identifiers as listed. *)
Theorem scan_deletion_list_in_listing_order (certServer : list (gmap string any)) :
  sublist (deleteCertKeyList (scan note domain certServer)) (cert_id <$> certServer).
Proof.
  induction certServer as [|cert l IH] using rev_ind; [done|].
  rewrite scan_snoc, fmap_app, scan_step_fields. simpl.
  destruct (value_of cert) as [value|] eqn:Hv.
  - rewrite (cert_id_value _ _ Hv). simpl.
    destruct (del_cond note domain value && _).
    + apply sublist_app; [done|]. done.
    + rewrite <- (app_nil_r (deleteCertKeyList _)).
      apply sublist_app; [done|]. by apply sublist_cons.
  - rewrite <- (app_nil_r (deleteCertKeyList _)).
    apply sublist_app; [done|]. by apply sublist_cons.
Qed.

(** X13: Listed entries without a [value] object are passed over: the scan of a
    listing is the scan of its entries that have one. *)
Theorem scan_skips_entries_without_value (certServer : list (gmap string any)) :
  scan note domain certServer =
  scan note domain (filter (λ c, is_Some (value_of c)) certServer).
Proof.
  induction certServer as [|cert l IH] using rev_ind; [done|].
  rewrite filter_app, filter_cons, filter_nil.
  destruct (value_of cert) as [value|] eqn:Hv.
  - rewrite decide_True by done. by rewrite !scan_snoc, IH.
  - rewrite decide_False by (by intros [? ?]).
    rewrite app_nil_r, scan_snoc, scan_step_fields, Hv. done.
Qed.

(** X14: When every reusable object carries an identifier, whether the reuse
    branch is taken does not depend on the order of the listing: the scan
    leaves a candidate exactly when some listed object is same-note and
    Exact. *)
Theorem scan_reuse_decision (certServer : list (gmap string any)) :
  (∀ c, c ∈ certServer → reuse_match note domain c = true → cert_id c ≠ "") →
  certKey (scan note domain certServer) ≠ "" ↔
  ∃ c, c ∈ certServer ∧ reuse_match note domain c = true.
Proof.
  intros Hids. rewrite scan_certKey. unfold last_match_id.
  destruct (last (filter _ certServer)) as [c|] eqn:Hlast.
  - apply last_Some_elem_of, list_elem_of_filter in Hlast as [Hm Hin].
    split; [intros _; by exists c | intros _; by apply Hids].
  - split; [done|]. intros (c & Hin & Hm). apply last_None in Hlast.
    assert (c ∈ filter (λ c, reuse_match note domain c = true) certServer) as Hf
      by (by apply list_elem_of_filter).
    rewrite Hlast in Hf. inversion Hf.
Qed.

End ScanMore.

Lemma scan_deletion_set_order_free_run :
  deleteCertKeyList (scan Run.note ["a.com"; "b.com"]
    [Run.entry "7" Run.note ["a.com"]; Run.entry "8" "other" ["a.com"; "c.com"]]) ≡ₚ
  deleteCertKeyList (scan Run.note ["a.com"; "b.com"]
    [Run.entry "8" "other" ["a.com"; "c.com"]; Run.entry "7" Run.note ["a.com"]]).
Proof. apply scan_deletion_set_order_free, Permutation_swap. Defined.

Lemma scan_reuse_decision_run :
  certKey (scan Run.note ["a.com"]
    [Run.entry "1" Run.note ["a.com"]; Run.entry "2" "other" ["a.com"]]) ≠ "" ↔
  ∃ c, c ∈ [Run.entry "1" Run.note ["a.com"]; Run.entry "2" "other" ["a.com"]] ∧
       reuse_match Run.note ["a.com"] c = true.
Proof.
  apply scan_reuse_decision. intros c Hc Hm.
  apply elem_of_cons in Hc as [->|Hc]; [vm_compute; discriminate|].
  apply list_elem_of_singleton in Hc as ->. vm_compute in Hm. discriminate Hm.
Defined.

(** * Further properties of the reconciler *)

Section CleanupMore.

Context {W : Type} `{!Env W}.

Implicit Types (a : Auth) (st : State W).

Lemma DeleteCertFromApisix_stdout a certKey st :
  stdout (DeleteCertFromApisix a certKey st).2 = stdout st.
Proof. by rewrite DeleteCertFromApisix_sends. Qed.

Lemma DeleteCertFromApisix_calls a certKey st :
  calls (DeleteCertFromApisix a certKey st).2 = calls st ++ [delete_request a certKey].
Proof. by rewrite DeleteCertFromApisix_sends. Qed.

Lemma delete_loop_ends a (certKey : string) (l : list string) : ∀ st,
  ((delete_loop a certKey l st).1 = None ∧
   calls (delete_loop a certKey l st).2 = calls st ++ (delete_request a <$> l) ∧
   stdout (delete_loop a certKey l st).2 = stdout st)
  ∨ (∃ n e, (delete_loop a certKey l st).1 = Some e ∧ (n < length l)%nat ∧
       calls (delete_loop a certKey l st).2 =
         calls st ++ (delete_request a <$> take (S n) l) ++
         [delete_request a certKey]).
Proof.
  induction l as [|x l IH]; intros st.
  - left. simpl. by rewrite app_nil_r.
  - destruct (DeleteCertFromApisix a x st) as [[b|err] st1] eqn:Hdel.
    + pose proof (DeleteCertFromApisix_calls a x st) as Hc.
      pose proof (DeleteCertFromApisix_stdout a x st) as Ho.
      rewrite Hdel in Hc, Ho. simpl in Hc, Ho.
      assert (delete_loop a certKey (x :: l) st = delete_loop a certKey l st1)
        as -> by (simpl; unfold mbind, M_bind; by rewrite Hdel).
      destruct (IH st1) as [(Hr & Hcalls & Hout)|(n & e & Hr & Hn & Hcalls)].
      * left. split; [done|]. rewrite Hcalls, Hc, Hout, Ho.
        by rewrite <- app_assoc.
      * right. exists (S n), e. split; [done|]. split; [simpl; lia|].
        rewrite Hcalls, Hc. by rewrite <- !app_assoc.
    + right. destruct (delete_loop_failure a certKey x l st err st1 Hdel)
        as [Hr Hcalls].
      exists 0%nat. eexists. split; [exact Hr|]. split; [simpl; lia|].
      rewrite Hcalls. by destruct l.
Qed.


(** Against answers that confirm the deletion of every candidate the loop
    returns no error. *)
Lemma delete_loop_all_confirmed a certKey l : ∀ st,
  (∀ id w, id ∈ l →
     ∃ res, (http_json (delete_request a id) w).1 = Ok res ∧
            confirms_deletion res id) →
  (delete_loop a certKey l st).1 = None.
Proof.
  induction l as [|x l IH]; intros st Hconf; [done|].
  simpl. unfold mbind, M_bind.
  pose proof (DeleteCertFromApisix_result a x st) as Hres.
  destruct (Hconf x (world st)) as (res & Hok & (d & Hd) & (key & Hk & Hb));
    [left|].
  rewrite Hok, Hd, Hk, Hb, String.eqb_refl in Hres.
  destruct (DeleteCertFromApisix a x st) as [r st1]. simpl in Hres. subst r.
  apply IH. intros id w Hid. apply Hconf. by right.
Qed.

End CleanupMore.

Section ReconcilerMore.

Context {W : Type} `{!Env W} `{!Crypto}.

Implicit Types (a : Auth) (st : State W) (cfg : option (gmap string any)).

Lemma Forall_delete_requests a (l : list string) :
  Forall (λ d, req_method d = "DELETE") (delete_request a <$> l).
Proof. induction l; by constructor. Qed.

Lemma decide_and_apply_trace a (p : Params) note sc st :
  ∃ tr, calls (decide_and_apply a p note sc st).2 = calls st ++ tr ∧
        (tr = [] ∨
         ∃ ds, tr = create_request a (certStr p) (keyStr p) note (domain p) :: ds ∧
               Forall (λ d, req_method d = "DELETE") ds).
Proof.
  unfold decide_and_apply. destruct (String.eqb (certKey sc) "").
  2: { exists []. split; [by rewrite app_nil_r | by left]. }
  unfold mbind, M_bind.
  pose proof (uploadCertToApisix_sends a (certStr p) (keyStr p) note (domain p) st)
    as Hs.
  destruct (uploadCertToApisix a (certStr p) (keyStr p) note (domain p) st)
    as [r st1]. simpl in Hs.
  assert (calls st1 = calls st ++
    [create_request a (certStr p) (keyStr p) note (domain p)]) as Hc1
    by (by rewrite Hs).
  destruct (bool_decide _ || _).
  { eexists. split; [exact Hc1|]. right. by exists []. }
  set (k := match r with Ok k => k | Err _ => "" end).
  destruct (0 <? length (deleteCertKeyList sc))%nat.
  2: { eexists. split; [exact Hc1|]. right. by exists []. }
  destruct (delete_loop_ends a k (deleteCertKeyList sc) st1)
    as [(Hr & Hcalls & _)|(n & e & Hr & _ & Hcalls)];
    destruct (delete_loop a k (deleteCertKeyList sc) st1) as [e' st2];
    simpl in Hr, Hcalls; subst e'; simpl; rewrite Hcalls, Hc1, <- app_assoc;
    eexists; (split; [reflexivity|]); right; eexists; (split; [reflexivity|]).
  - apply Forall_delete_requests.
  - apply Forall_app. split; [apply Forall_delete_requests | by constructor].
Qed.

(** X16: Whatever the parameters and the gateway, the requests of one
    [Upload_bind] are, in this order: at most one GET, then at most one
    POST, then DELETEs only. In particular nothing is deleted before a new
    object has been posted, and no object is posted twice. *)
Theorem Upload_bind_trace cfg st :
  ∃ tr, calls (Upload_bind cfg st).2 = calls st ++ tr ∧ trace_shape tr.
Proof.
  unfold Upload_bind.
  destruct (check_params cfg) as [p|e].
  2: { exists []. by rewrite app_nil_r. }
  destruct (GetSHA256 (certStr p)) as [sha|e].
  2: { exists []. by rewrite app_nil_r. }
  unfold mbind, M_bind.
  pose proof (listCertFromApisix_sends (NewAuth (adminKey p) (serverAddress p)) st)
    as Hs.
  destruct (listCertFromApisix _ st) as [[certServer|e] st1]; simpl in Hs.
  2: { exists [list_request (NewAuth (adminKey p) (serverAddress p))].
       by rewrite Hs. }
  destruct (decide_and_apply_trace (NewAuth (adminKey p) (serverAddress p)) p
              ("allinssl-" +:+ sha)
              (scan ("allinssl-" +:+ sha) (domain p) certServer) st1)
    as (tr & Hcalls & Htr).
  exists (list_request (NewAuth (adminKey p) (serverAddress p)) :: tr).
  rewrite Hcalls, Hs. simpl. rewrite <- app_assoc. split; [done|].
  split; [done|]. destruct Htr as [->|(ds & -> & Hds)]; done.
Qed.

(** X17: When the listing fails, or when no reusable object is listed and the
    upload fails or brings back an empty identifier, [Upload_bind] returns
    an error and stops where that call stopped: one GET, or one GET and one
    POST, and no DELETE, so that nothing listed is removed. An upload that
    answers with an empty identifier and no error is reported as a failed
    upload that wraps no error. *)
Theorem Upload_bind_failure_before_cleanup cfg st (p : Params) (sha : string) :
  let a := NewAuth (adminKey p) (serverAddress p) in
  let note := "allinssl-" +:+ sha in
  check_params cfg = Ok p →
  GetSHA256 (certStr p) = Ok sha →
  (∀ e, (listCertFromApisix a st).1 = Err e →
     Upload_bind cfg st =
       (Err (Errorf "failed to list certs from Cloud: %w" [ArgError (Some e)]),
        (listCertFromApisix a st).2)
     ∧ calls (Upload_bind cfg st).2 = calls st ++ [list_request a])
  ∧ (∀ certServer r,
       (listCertFromApisix a st).1 = Ok certServer →
       last_match_id note (domain p) certServer = "" →
       (uploadCertToApisix a (certStr p) (keyStr p) note (domain p)
          (listCertFromApisix a st).2).1 = r →
       (r = Ok "" ∨ ∃ e, r = Err e) →
       (Upload_bind cfg st).1 =
         Err (Errorf "failed to upload to Cloud: %w" [ArgError (err_of r)])
       ∧ calls (Upload_bind cfg st).2 =
           calls st ++ [list_request a;
                        create_request a (certStr p) (keyStr p) note (domain p)]).
Proof.
  intros a note Hc Hsha. unfold Upload_bind. rewrite Hc, Hsha.
  unfold mbind, M_bind. fold a note.
  pose proof (listCertFromApisix_sends a st) as Hs.
  destruct (listCertFromApisix a st) as [rl st1]. simpl in Hs. simpl.
  split.
  - intros e ->. split; [done|]. simpl. by rewrite Hs.
  - intros certServer r -> Hlast Hup Hbad. unfold decide_and_apply.
    rewrite scan_certKey, Hlast. simpl. unfold mbind, M_bind.
    pose proof (uploadCertToApisix_sends a (certStr p) (keyStr p) note (domain p) st1)
      as Hs2.
    destruct (uploadCertToApisix a (certStr p) (keyStr p) note (domain p) st1)
      as [r' st2]. simpl in Hup, Hs2. subst r'.
    assert (bool_decide (is_Some (err_of r)) ||
            String.eqb (match r with Ok k => k | Err _ => "" end) "" = true) as ->.
    { destruct Hbad as [->|[e ->]]; apply orb_true_iff; by right. }
    simpl. split; [done|]. rewrite Hs2, Hs. simpl. by rewrite <- app_assoc.
Qed.

(** X18: When no reusable object is listed, the upload brings back a non-empty
    identifier and the gateway confirms the deletion of every candidate,
    [Upload_bind] returns the uploaded-and-bound answer after one GET, one
    POST and one DELETE for each candidate of the deletion list, in its
    order; it prints nothing. *)
Theorem Upload_bind_uploads_and_cleans cfg st (p : Params) (sha : string)
    (certServer : list (gmap string any)) (k : string) :
  let a := NewAuth (adminKey p) (serverAddress p) in
  let note := "allinssl-" +:+ sha in
  check_params cfg = Ok p →
  GetSHA256 (certStr p) = Ok sha →
  (listCertFromApisix a st).1 = Ok certServer →
  last_match_id note (domain p) certServer = "" →
  (uploadCertToApisix a (certStr p) (keyStr p) note (domain p)
     (listCertFromApisix a st).2).1 = Ok k →
  k ≠ "" →
  (∀ id w, id ∈ deleteCertKeyList (scan note (domain p) certServer) →
     ∃ res, (http_json (delete_request a id) w).1 = Ok res ∧
            confirms_deletion res id) →
  (Upload_bind cfg st).1 = Ok uploaded_and_bound
  ∧ calls (Upload_bind cfg st).2 =
      calls st ++ [list_request a;
                   create_request a (certStr p) (keyStr p) note (domain p)] ++
      (delete_request a <$> deleteCertKeyList (scan note (domain p) certServer))
  ∧ stdout (Upload_bind cfg st).2 = stdout st.
Proof.
  intros a note Hc Hsha Hlist Hlast Hup Hk Hconf.
  unfold Upload_bind. rewrite Hc, Hsha. unfold mbind, M_bind. fold a note.
  pose proof (listCertFromApisix_sends a st) as Hs.
  destruct (listCertFromApisix a st) as [rl st1]. simpl in Hs, Hlist, Hup.
  subst rl. simpl. unfold decide_and_apply.
  rewrite scan_certKey, Hlast. simpl. unfold mbind, M_bind.
  pose proof (uploadCertToApisix_sends a (certStr p) (keyStr p) note (domain p) st1)
    as Hs2.
  destruct (uploadCertToApisix a (certStr p) (keyStr p) note (domain p) st1)
    as [r st2]. simpl in Hup, Hs2. subst r. simpl.
  destruct (String.eqb_spec k "") as [|_]; [done|]. simpl.
  set (dl := deleteCertKeyList (scan note (domain p) certServer)) in *.
  assert (calls st2 = calls st ++
    [list_request a; create_request a (certStr p) (keyStr p) note (domain p)])
    as Hc2 by (rewrite Hs2, Hs; simpl; by rewrite <- app_assoc).
  assert (stdout st2 = stdout st) as Ho2 by (by rewrite Hs2, Hs).
  destruct (0 <? length dl)%nat eqn:Hlen.
  - pose proof (delete_loop_all_confirmed a k dl st2 Hconf) as Hnone.
    destruct (delete_loop_ends a k dl st2)
      as [(_ & Hcalls & Hout)|(n & e & Hr & _)]; [|congruence].
    destruct (delete_loop a k dl st2) as [e st3]. simpl in *. subst e.
    unfold mret, M_ret. simpl.
    split; [done|]. rewrite Hcalls, Hout, Hc2, Ho2.
    by rewrite <- !app_assoc.
  - unfold mret, M_ret. simpl.
    apply Nat.ltb_ge in Hlen. destruct dl; [|simpl in Hlen; lia].
    split; [done|]. rewrite Hc2, Ho2. done.
Qed.

End ReconcilerMore.

(** An upload answered with code 200 and an empty key, after an empty
    listing: a failed upload that wraps no error, and no DELETE. *)
Lemma Upload_bind_failure_before_cleanup_run :
  (@Upload_bind _ Run.scripted Run.plain_crypto (Run.cfg ["a.com"])
     (initial [Run.listing []; Run.created ""])).1 =
    Err (Errorf "failed to upload to Cloud: %w" [ArgError (err_of (Ok ""))])
  ∧ calls (@Upload_bind _ Run.scripted Run.plain_crypto (Run.cfg ["a.com"])
     (initial [Run.listing []; Run.created ""])).2 =
    [] ++ [list_request (NewAuth "secret" "http://gw:9180/apisix/admin");
           create_request (NewAuth "secret" "http://gw:9180/apisix/admin")
             "0c" "k" ("allinssl-" +:+ "3063") ["a.com"]].
Proof.
  refine (proj2 (@Upload_bind_failure_before_cleanup _ Run.scripted
    Run.plain_crypto (Run.cfg ["a.com"])
    (initial [Run.listing []; Run.created ""])
    {| certStr := "0c"; keyStr := "k"; adminKey := "secret";
       serverAddress := "http://gw:9180/apisix/admin"; domain := ["a.com"] |}
    "3063" _ _) [] (Ok "") _ _ _ _).
  - vm_compute. reflexivity.
  - vm_compute. reflexivity.
  - vm_compute. reflexivity.
  - vm_compute. reflexivity.
  - vm_compute. reflexivity.
  - by left.
Defined.

(** A stale object "old" is listed by a gateway that confirms deletions:
    one GET, one POST, one DELETE for "old", and the uploaded-and-bound
    answer. *)
Lemma Upload_bind_uploads_and_cleans_run :
  (@Upload_bind _ (Sim.gateway [("k1", Run.entry "old" Run.note ["x.com"])] "new")
     Run.plain_crypto (Run.cfg ["a.com"]) (initial ())).1 = Ok uploaded_and_bound
  ∧ calls (@Upload_bind _
      (Sim.gateway [("k1", Run.entry "old" Run.note ["x.com"])] "new")
      Run.plain_crypto (Run.cfg ["a.com"]) (initial ())).2 =
    [] ++ [list_request (NewAuth "secret" "http://gw:9180/apisix/admin");
           create_request (NewAuth "secret" "http://gw:9180/apisix/admin")
             "0c" "k" ("allinssl-" +:+ "3063") ["a.com"]] ++
    (delete_request (NewAuth "secret" "http://gw:9180/apisix/admin") <$>
       deleteCertKeyList (scan ("allinssl-" +:+ "3063") ["a.com"]
         [Run.entry "old" Run.note ["x.com"]]))
  ∧ stdout (@Upload_bind _
      (Sim.gateway [("k1", Run.entry "old" Run.note ["x.com"])] "new")
      Run.plain_crypto (Run.cfg ["a.com"]) (initial ())).2 = [].
Proof.
  refine (@Upload_bind_uploads_and_cleans _
    (Sim.gateway [("k1", Run.entry "old" Run.note ["x.com"])] "new")
    Run.plain_crypto (Run.cfg ["a.com"]) (initial ())
    {| certStr := "0c"; keyStr := "k"; adminKey := "secret";
       serverAddress := "http://gw:9180/apisix/admin"; domain := ["a.com"] |}
    "3063" [Run.entry "old" Run.note ["x.com"]] "new" _ _ _ _ _ _ _).
  - vm_compute. reflexivity.
  - vm_compute. reflexivity.
  - vm_compute. reflexivity.
  - vm_compute. reflexivity.
  - vm_compute. reflexivity.
  - done.
  - intros id w Hid.
    assert (id = "old") as ->.
    { apply list_elem_of_singleton. revert Hid.
      by vm_compute (deleteCertKeyList _). }
    exists {[ "deleted" := AString "1";
              "key" := AString "http://gw:9180/apisix/admin/ssls/old" ]}.
    split; [vm_compute; reflexivity|]. split.
    + exists "1". vm_compute. reflexivity.
    + exists "http://gw:9180/apisix/admin/ssls/old".
      split; vm_compute; reflexivity.
Defined.

Section ReconcilerAnswers.

Context {W : Type} `{!Env W} `{!Crypto}.

Implicit Types (a : Auth) (st : State W) (cfg : option (gmap string any)).

Lemma decide_and_apply_success a (p : Params) note sc st resp :
  (decide_and_apply a p note sc st).1 = Ok resp →
  stdout (decide_and_apply a p note sc st).2 = stdout st ∧
  ((resp = already_bound ∧ decide_and_apply a p note sc st = (Ok resp, st)) ∨
   (resp = uploaded_and_bound ∧ certKey sc = "")).
Proof.
  unfold decide_and_apply.
  destruct (String.eqb_spec (certKey sc) "") as [Hk|Hk].
  2: { unfold mret, M_ret. simpl. intros [= <-]. split; [done|]. by left. }
  unfold mbind, M_bind.
  pose proof (uploadCertToApisix_sends a (certStr p) (keyStr p) note (domain p) st)
    as Hs.
  destruct (uploadCertToApisix a (certStr p) (keyStr p) note (domain p) st)
    as [r st1]. simpl in Hs.
  destruct (bool_decide _ || _); [done|].
  set (k := match r with Ok k => k | Err _ => "" end).
  destruct (0 <? length (deleteCertKeyList sc))%nat.
  - destruct (delete_loop_ends a k (deleteCertKeyList sc) st1)
      as [(Hr & _ & Hout)|(n & e & Hr & _)];
      destruct (delete_loop a k (deleteCertKeyList sc) st1) as [e' st2];
      simpl in Hr; subst e'; unfold mret, M_ret; simpl; [|done].
    intros [= <-]. simpl in Hout. split; [by rewrite Hout, Hs | by right].
  - unfold mret, M_ret. simpl. intros [= <-].
    split; [by rewrite Hs | by right].
Qed.

(** X19: A successful [Upload_bind] has printed nothing on standard output and
    answers in one of two ways: already bound, after the GET of the listing
    and no other request, or uploaded and bound. The warnings of the
    clean-up are printed on failing runs only. *)
Theorem Upload_bind_success_is_quiet cfg st (resp : Response) :
  (Upload_bind cfg st).1 = Ok resp →
  stdout (Upload_bind cfg st).2 = stdout st
  ∧ (resp = already_bound ∨ resp = uploaded_and_bound)
  ∧ (resp = already_bound →
       ∃ g, calls (Upload_bind cfg st).2 = calls st ++ [g] ∧ req_method g = "GET").
Proof.
  unfold Upload_bind.
  destruct (check_params cfg) as [p|e]; [|done].
  destruct (GetSHA256 (certStr p)) as [sha|e]; [|done].
  unfold mbind, M_bind.
  pose proof (listCertFromApisix_sends (NewAuth (adminKey p) (serverAddress p)) st)
    as Hs.
  destruct (listCertFromApisix _ st) as [[certServer|e] st1]; simpl in Hs;
    [|done].
  intros Hok.
  destruct (decide_and_apply_success _ _ _ _ _ _ Hok) as [Hout Hcase].
  split; [by rewrite Hout, Hs|].
  destruct Hcase as [[-> Hrun]|[-> Hk]].
  - split; [by left|]. intros _. rewrite Hrun. simpl.
    exists (list_request (NewAuth (adminKey p) (serverAddress p))).
    by rewrite Hs.
  - split; [by right|]. intros Heq. exfalso.
    apply (f_equal (λ r, Result r !! "message")) in Heq.
    vm_compute in Heq. discriminate Heq.
Qed.

End ReconcilerAnswers.

Lemma Upload_bind_success_is_quiet_run :
  stdout (@Upload_bind _ Run.scripted Run.plain_crypto (Run.cfg ["a.com"])
    (initial [Run.listing [("k1", Run.entry "1" Run.note ["a.com"])]])).2 = []
  ∧ (already_bound = already_bound ∨ already_bound = uploaded_and_bound)
  ∧ (already_bound = already_bound →
       ∃ g, calls (@Upload_bind _ Run.scripted Run.plain_crypto (Run.cfg ["a.com"])
              (initial [Run.listing [("k1", Run.entry "1" Run.note ["a.com"])]])).2 =
            [] ++ [g] ∧ req_method g = "GET").
Proof.
  apply (@Upload_bind_success_is_quiet _ Run.scripted Run.plain_crypto
           (Run.cfg ["a.com"])
           (initial [Run.listing [("k1", Run.entry "1" Run.note ["a.com"])]])
           already_bound).
  vm_compute. reflexivity.
Defined.
